(** * Swiggy bill scraper: extraction loop and ledger synchronizer

    A shallow embedding of [src/swiggy_scraper.py] ([main]: the loop over
    the orders and the publication of the rows) and of
    [src/upload_gsheet.py] ([push_df_to_gsheet]), with the properties of
    the specification, and further properties of the code, stated and
    proved over it.

    Python [str] values are modelled by [string]; the characters are the
    code points below 256.  Text outside that range is outside the model. *)

From Stdlib Require Import Ascii String DecimalString DecimalNat.
From stdpp Require Import gmap strings list fin_maps.

Local Open Scope string_scope.
Local Open Scope nat_scope.
Local Open Scope list_scope.

(** ** Python string primitives used by the sources *)
Module PyStr.

(** [str.isspace] on one character, which is also what the regular
    expression class [\s] accepts on a [str] pattern. *)
Definition isspace (c : ascii) : bool :=
  let n := nat_of_ascii c in
  (((9 <=? n) && (n <=? 13)) || ((28 <=? n) && (n <=? 32))
   || (n =? 133) || (n =? 160))%nat.

(** The line boundaries of [str.splitlines]. *)
Definition islinebreak (c : ascii) : bool :=
  let n := nat_of_ascii c in
  (((10 <=? n) && (n <=? 13)) || ((28 <=? n) && (n <=? 30)) || (n =? 133))%nat.

Fixpoint lstrip (s : string) : string :=
  match s with
  | String c t => if isspace c then lstrip t else s
  | EmptyString => EmptyString
  end.

(** [rstrip] drops the trailing run of whitespace: a character is kept
    when something that is kept follows it, or when it is not a space. *)
Fixpoint rstrip (s : string) : string :=
  match s with
  | String c t =>
      match rstrip t with
      | EmptyString => if isspace c then EmptyString else String c EmptyString
      | t' => String c t'
      end
  | EmptyString => EmptyString
  end.

Definition strip (s : string) : string := rstrip (lstrip s).

(** [s[n:]] for a non-negative [n]. *)
Fixpoint drop_chars (n : nat) (s : string) : string :=
  match n, s with
  | S n', String _ t => drop_chars n' t
  | _, _ => s
  end.

(** [s.startswith(p)], returning the rest of [s] after [p]; the
    comparison of characters is a parameter ([eqc pattern_char char]). *)
Fixpoint strip_prefix_by (eqc : ascii → ascii → bool) (p s : string)
  : option string :=
  match p, s with
  | EmptyString, _ => Some s
  | String a p', String b s' =>
      if eqc a b then strip_prefix_by eqc p' s' else None
  | String _ _, EmptyString => None
  end.

Definition ascii_eqb (a b : ascii) : bool := bool_decide (a = b).

(** [str.replace(old, new)] for a non-empty [old]: the occurrences are
    replaced from the left, without overlap. *)
Fixpoint replace_go (fuel : nat) (old new s : string) : string :=
  match fuel with
  | 0 => s
  | S fuel' =>
      match strip_prefix_by ascii_eqb old s with
      | Some rest => new +:+ replace_go fuel' old new rest
      | None =>
          match s with
          | String c t => String c (replace_go fuel' old new t)
          | EmptyString => EmptyString
          end
      end
  end.

(** With an empty [old], Python puts [new] before every character and at
    the end. *)
Fixpoint intersperse_all (new s : string) : string :=
  match s with
  | String c t => new +:+ String c (intersperse_all new t)
  | EmptyString => new
  end.

Definition replace (old new s : string) : string :=
  match old with
  | EmptyString => intersperse_all new s
  | _ => replace_go (S (String.length s)) old new s
  end.

(** [s.splitlines()[0]]; [None] is the [IndexError] of the empty list,
    which is what [splitlines] returns for the empty string. *)
Fixpoint upto_linebreak (s : string) : string :=
  match s with
  | String c t => if islinebreak c then EmptyString else String c (upto_linebreak t)
  | EmptyString => EmptyString
  end.

Definition splitlines_first (s : string) : option string :=
  match s with
  | EmptyString => None
  | _ => Some (upto_linebreak s)
  end.

(** Lower case of an ASCII letter; the other characters are unchanged.
    A pattern letter [p] matches [c] under [re.IGNORECASE] when the
    lower case of [c] is [p], for the letters of the pattern below. *)
Definition ascii_lower (c : ascii) : ascii :=
  let n := nat_of_ascii c in
  if ((65 <=? n) && (n <=? 90))%nat then ascii_of_nat (n + 32) else c.

Definition ignorecase_eqb (p c : ascii) : bool := ascii_eqb p (ascii_lower c).

(** [re.sub(r'delivered on\s*', '', s, flags=re.IGNORECASE)]: every
    match, found from the left, is deleted together with the whitespace
    that follows it. *)
Fixpoint re_sub_delivered_on_go (fuel : nat) (s : string) : string :=
  match fuel with
  | 0 => s
  | S fuel' =>
      match strip_prefix_by ignorecase_eqb "delivered on" s with
      | Some rest => re_sub_delivered_on_go fuel' (lstrip rest)
      | None =>
          match s with
          | String c t => String c (re_sub_delivered_on_go fuel' t)
          | EmptyString => EmptyString
          end
      end
  end.

Definition re_sub_delivered_on (s : string) : string :=
  re_sub_delivered_on_go (S (String.length s)) s.

(** [str(n)] for a natural number. *)
Definition str_of_nat (n : nat) : string := NilZero.string_of_uint (Nat.to_uint n).

Definition startswith_slash (s : string) : bool :=
  match s with
  | String c _ => ascii_eqb c "/"
  | EmptyString => false
  end.

Fixpoint endswith_slash (s : string) : bool :=
  match s with
  | String c EmptyString => ascii_eqb c "/"
  | String _ t => endswith_slash t
  | EmptyString => false
  end.

(** [os.path.join(a, b)] of posixpath. *)
Definition path_join (a b : string) : string :=
  if startswith_slash b then b
  else if bool_decide (a = "") || endswith_slash a then a +:+ b
  else a +:+ "/" +:+ b.

(** [os.path.basename(p)]: what follows the last slash. *)
Fixpoint basename (p : string) : string :=
  match p with
  | String c t =>
      if ascii_eqb c "/" then basename t
      else
        match String.index 0 "/" t with
        | Some _ => basename t
        | None => p
        end
  | EmptyString => EmptyString
  end.

End PyStr.

(** ** The extraction loop of [main] in [src/swiggy_scraper.py] *)
Module Scraper.
Import PyStr.

(** The settings read from the environment that the loop body uses. *)
Record config := {
  BILLS_DIRECTORY : string;
}.

Definition default_config : config := {| BILLS_DIRECTORY := "./bills" |}.

(** What a locator yields when a field is read: the call raises, the
    element is not visible, or its text. *)
Inductive probe :=
  | Raises
  | NotVisible
  | InnerText (text : string).

(** Everything the page and the collaborators answer while one order is
    processed. *)
Record detail_view := {
  buttons_found : nat;            (* len(all_buttons) when re-resolved *)
  click_ok : bool;                (* button.click() returns *)
  location_found : bool;          (* wait_for_selector(text=DELIVERY_LOCATION) *)
  amount_probe : probe;           (* div.rupee *)
  order_id_probe : probe;         (* div._1Hjkp *)
  date_text : option string;      (* inner_text of the date container, None when it raises *)
  screenshot_ok : bool;           (* page.screenshot returns *)
  drive_file_id : option string;  (* the id Drive returns, None when upload_to_drive catches an error *)
  reload_ok : bool;               (* the wait for the list to come back *)
}.

(** One dictionary of [order_data], with its keys in insertion order. *)
Record OrderRow := {
  order_id : string;
  date : string;
  drive_link : string;
  amount : string;
}.

Inductive event :=
  | Screenshot (path : string)
  | Upload (path name : string).

(** The locals of [main] that live across iterations.  [date_part] is
    [None] as long as the name is not bound ('date_part' in locals() is
    false); it is never unbound or reset afterwards. *)
Record locals := {
  order_data : list OrderRow;
  date_part : option string;
  log : list event;
}.

Definition initial_locals : locals :=
  {| order_data := []; date_part := None; log := [] |}.

(** Truthiness of a [str] or [None]. *)
Definition truthy (o : option string) : bool :=
  match o with
  | Some s => negb (bool_decide (s = ""))
  | None => false
  end.

Definition or_unknown (o : option string) : string :=
  match o with
  | Some s => if bool_decide (s = "") then "Unknown" else s
  | None => "Unknown"
  end.

Definition default_screenshot_path (i : nat) : string :=
  "swiggy_order_details_" +:+ str_of_nat (i + 1) +:+ ".png".

(** Lines 179-188. *)
Definition extract_amount (p : probe) : option string :=
  match p with
  | InnerText s => Some s
  | _ => None
  end.

(** Lines 190-201. *)
Definition extract_order_id (p : probe) : option string :=
  match p with
  | InnerText s => Some (strip (replace "Order #" "" s))
  | _ => None
  end.

(** Line 217. *)
Definition sanitize (date_part : string) : string :=
  replace ":" "_" (replace " " "_" (replace "," "" date_part)).

(** Lines 203-227: the new binding of [date_part] (the old one when the
    block raises before the assignment) and the screenshot path. *)
Definition extract_date (cfg : config) (i : nat) (old : option string)
    (text : option string) : option string * string :=
  match text with
  | None => (old, default_screenshot_path i)
  | Some full_text =>
      match splitlines_first full_text with
      | None => (old, default_screenshot_path i)
      | Some date_line =>
          let date_part := strip (re_sub_delivered_on date_line) in
          if bool_decide (date_part = "") then
            (Some date_part, default_screenshot_path i)
          else
            let sanitized_date := sanitize date_part in
            if (50 <? String.length sanitized_date)%nat
               || bool_decide (strip sanitized_date = "") then
              (Some date_part, default_screenshot_path i)
            else
              (Some date_part,
               path_join (BILLS_DIRECTORY cfg)
                 (drop_chars 4 sanitized_date +:+ ".png"))
      end
  end.

(** [upload_to_drive]: the link built from the file id, [None] when any
    of the Drive calls raised. *)
Definition upload_to_drive (file_id : option string) : option string :=
  match file_id with
  | Some id =>
      Some ("https://drive.google.com/file/d/" +:+ id +:+ "/view?usp=sharing")
  | None => None
  end.

(** Lines 169-252: the body guarded by the delivery-location check.  The
    handler of line 250 catches whatever the body raises; the fields
    already extracted are then dropped, the binding of [date_part] stays. *)
Definition process_detail (cfg : config) (i : nat) (v : detail_view)
    (st : locals) : locals :=
  if negb (location_found v) then st
  else
    let amount_found := extract_amount (amount_probe v) in
    let order_id_found := extract_order_id (order_id_probe v) in
    let '(date_part', screenshot_path) :=
      extract_date cfg i (date_part st) (date_text v) in
    if negb (screenshot_ok v) then
      {| order_data := order_data st; date_part := date_part'; log := log st |}
    else
      let file_name := basename screenshot_path in
      let link := upload_to_drive (drive_file_id v) in
      let log' := (log st ++ [Screenshot screenshot_path;
                              Upload screenshot_path file_name])%list in
      if truthy link then
        {| order_data := (order_data st ++
             [{| order_id := or_unknown order_id_found;
                 date := or_unknown date_part';
                 drive_link := default "" link;
                 amount := or_unknown amount_found |}])%list;
           date_part := date_part';
           log := log' |}
      else
        {| order_data := order_data st; date_part := date_part'; log := log' |}.

(** Lines 138-260: the loop over the indices, [views] holding what the
    page answers at each index.  The loop stops at the [break] of line
    155 and at any error outside the guarded body (caught at line 262). *)
Fixpoint process_orders (cfg : config) (i : nat) (views : list detail_view)
    (st : locals) : locals :=
  match views with
  | [] => st
  | v :: rest =>
      if (buttons_found v <=? i)%nat then st
      else if negb (click_ok v) then st
      else
        let st' := process_detail cfg i v st in
        if negb (reload_ok v) then st'
        else process_orders cfg (S i) rest st'
  end.

Definition main_loop (cfg : config) (views : list detail_view) : locals :=
  process_orders cfg 0 views initial_locals.

End Scraper.

(** ** [push_df_to_gsheet] in [src/upload_gsheet.py] *)
Module GSheet.

(** *** Data frames

    A cell holds text or is missing, as NaN or as None: the payloads the
    scraper produces and the worksheet returns.  Column labels are
    looked up by their first occurrence; pandas agrees with that on
    frames whose labels are distinct. *)
Inductive cell :=
  | Text (s : string)
  | NaN
  | PyNone.

Global Instance cell_eq_dec : EqDecision cell.
Proof. solve_decision. Defined.

Record DataFrame := {
  columns : list string;
  values : list (list cell);
}.

(** [len(df)] and [df.shape]. *)
Definition len (df : DataFrame) : nat := length (values df).
Definition shape (df : DataFrame) : nat * nat := (len df, length (columns df)).

Definition isnull (c : cell) : bool :=
  match c with
  | Text _ => false
  | _ => true
  end.

Definition map_cells {A B} (f : A → B) (rows : list (list A)) : list (list B) :=
  (λ row : list A, f <$> row) <$> rows.

(** [df.fillna("")]. *)
Definition fillna (fill : string) (df : DataFrame) : DataFrame :=
  {| columns := columns df;
     values := map_cells (λ c, if isnull c then Text fill else c) (values df) |}.

(** [df.where(pd.notnull(df), None)]. *)
Definition where_notnull_none (df : DataFrame) : DataFrame :=
  {| columns := columns df;
     values := map_cells (λ c, if isnull c then PyNone else c) (values df) |}.

(** [astype(str)] on one cell. *)
Definition astype_str (c : cell) : string :=
  match c with
  | Text s => s
  | NaN => "nan"
  | PyNone => "None"
  end.

Inductive exn :=
  | SpreadsheetNotFound
  | WorksheetNotFound
  | APIError (status_code : nat)
  | KeyError (key : string)
  | IndexError
  | ValueError
  | InvalidIndexError
  | TypeError
  | OtherError (what : string).

Global Instance exn_eq_dec : EqDecision exn.
Proof. solve_decision. Defined.

Definition column_index (name : string) (cols : list string) : option nat :=
  fst <$> list_find (λ c, c = name) cols.

(** [df[name]]: the cells of a column, top to bottom. *)
Definition column (df : DataFrame) (name : string) : exn + list cell :=
  match column_index name (columns df) with
  | Some k => inr ((λ row : list cell, default NaN (row !! k)) <$> values df)
  | None => inl (KeyError name)
  end.

(** [pd.DataFrame(rows, columns=headers)] on the strings that
    [get_all_values] returns. *)
Definition frame_of_strings (headers : list string) (rows : list (list string))
  : exn + DataFrame :=
  if forallb (λ row, length row =? length headers) rows then
    inr {| columns := headers; values := map_cells Text rows |}
  else inl ValueError.

(** The rows of [df] laid out under the labels [cols], with NaN where
    [df] has no such column. *)
Definition reindex (cols : list string) (df : DataFrame) : list (list cell) :=
  (λ row : list cell,
     (λ c, match column_index c (columns df) with
           | Some k => default NaN (row !! k)
           | None => NaN
           end) <$> cols) <$> values df.

(** [pd.concat([a, b], ignore_index=True)]: the union of the labels in
    order of appearance, the rows of [a] and then those of [b].  With
    labels that differ and are not distinct, pandas refuses. *)
Definition concat (a b : DataFrame) : exn + DataFrame :=
  if bool_decide (columns a = columns b) then
    inr {| columns := columns a; values := values a ++ values b |}
  else if bool_decide (NoDup (columns a)) && bool_decide (NoDup (columns b)) then
    let cols := columns a ++ filter (λ c, c ∉ columns a) (columns b) in
    inr {| columns := cols; values := reindex cols a ++ reindex cols b |}
  else inl InvalidIndexError.

(** [set(series.astype(str))]. *)
Definition key_set (series : list cell) : gset string :=
  list_to_set (astype_str <$> series).

(** [~series.astype(str).isin(keys)]. *)
Definition not_isin (series : list cell) (keys : gset string) : list bool :=
  (λ c, negb (bool_decide (astype_str c ∈ keys))) <$> series.

(** [frame[mask]]: the rows at which the mask is true. *)
Definition boolean_index (df : DataFrame) (mask : list bool) : DataFrame :=
  {| columns := columns df;
     values := fst <$> filter (λ p, p.2 = true) (zip (values df) mask) |}.

(** Lines 80-100: the frame to write, from what the worksheet held and
    the new frame. *)
Definition merge_existing (existing_data : list (list string)) (df : DataFrame)
  : exn + DataFrame :=
  match existing_data with
  | [] => inr df
  | existing_headers :: existing_rows_content =>
      match frame_of_strings existing_headers existing_rows_content with
      | inl e => inl e
      | inr existing_df =>
          if (0 <? len existing_df)%nat && (0 <? len df)%nat then
            match columns existing_df with
            | [] => inl IndexError
            | first_col :: _ =>
                match column existing_df first_col, column df first_col with
                | inl e, _ => inl e
                | _, inl e => inl e
                | inr existing_series, inr new_series =>
                    let existing_keys := key_set existing_series in
                    let new_keys := key_set new_series in
                    let keys_to_remove := existing_keys ∩ new_keys in
                    let existing_df' :=
                      if bool_decide (keys_to_remove = ∅) then existing_df
                      else boolean_index existing_df
                             (not_isin existing_series keys_to_remove) in
                    if (0 <? len existing_df')%nat then concat existing_df' df
                    else inr df
                end
            end
          else inr df
      end
  end.

(** *** The cell-addressed writes *)

(** One entry of [batch_update_requests]: the row and column given to
    [rowcol_to_a1] and the value. *)
Record request := {
  range_row : nat;
  range_col : nat;
  value : cell;
}.

Definition batch_size : nat := 3500.
Definition start_row : nat := 1.

(** [math.ceil(total / batch_size)]. *)
Definition num_chunks (total : nat) : nat := (total + (batch_size - 1)) / batch_size.

(** [columns_data[a:b]]. *)
Definition slice {A} (a b : nat) (l : list A) : list A := take (b - a) (drop a l).

(** Lines 136-143: the requests of one chunk, rows numbered from [first]. *)
Definition chunk_requests (first : nat) (chunk : list (list cell)) : list request :=
  mjoin (imap (λ k row_data,
          imap (λ j v, {| range_row := first + k; range_col := j + 1; value := v |})
               row_data) chunk).

(** Lines 128-143 for one [chunk_index]. *)
Definition requests_of_chunk_index (columns_data : list (list cell))
    (chunk_index : nat) : list request :=
  let total_rows_to_upload := length columns_data in
  let chunk_start_offset := chunk_index * batch_size in
  let chunk_end_offset :=
    (chunk_start_offset + batch_size) `min` total_rows_to_upload in
  let current_chunk_data := slice chunk_start_offset chunk_end_offset columns_data in
  chunk_requests (start_row + chunk_start_offset) current_chunk_data.

(** Lines 116-120. *)
Definition columns_data_of (df : DataFrame) : list (list cell) :=
  (Text <$> columns df) :: values df.

(** The batches that reach [worksheet.batch_update], in order: the empty
    ones are not sent (line 145). *)
Definition batches (columns_data : list (list cell)) : list (list request) :=
  filter (λ reqs, reqs ≠ [])
    (requests_of_chunk_index columns_data <$> seq 0 (num_chunks (length columns_data))).

(** *** The worksheet

    The service keeps the text of the cells that were written; a cell
    that holds the empty string is an empty cell.  The limits of the
    grid are not enforced here: a write the service refuses is a fault
    of the run (see [plan] below). *)
Record worksheet := {
  row_count : nat;
  col_count : nat;
  cells : gmap (nat * nat) string;
}.

Definition cell_text (ws_cells : gmap (nat * nat) string) (r c : nat) : string :=
  default "" (ws_cells !! (r, c)).

Definition used_addresses (ws_cells : gmap (nat * nat) string) : list (nat * nat) :=
  fst <$> filter (λ kv, kv.2 ≠ "") (map_to_list ws_cells).

(** [worksheet.get_all_values()]: the rectangle from A1 to the last row
    and the last column that hold a non-empty cell, empty cells read as
    the empty string. *)
Definition get_all_values (ws_cells : gmap (nat * nat) string) : list (list string) :=
  let last_row := max_list (fst <$> used_addresses ws_cells) in
  let last_col := max_list (snd <$> used_addresses ws_cells) in
  (λ r, (λ c, cell_text ws_cells r c) <$> seq 1 last_col) <$> seq 1 last_row.

(** One request of a batch: a None value leaves the cell as it is. *)
Definition apply_request (ws_cells : gmap (nat * nat) string) (rq : request)
  : gmap (nat * nat) string :=
  match value rq with
  | Text s => <[(range_row rq, range_col rq) := s]> ws_cells
  | _ => ws_cells
  end.

Definition apply_batch (ws_cells : gmap (nat * nat) string) (reqs : list request)
  : gmap (nat * nat) string :=
  foldl apply_request ws_cells reqs.

(** *** The Python objects and the remote service

    The frame and the dictionary that the caller passes are objects of
    the caller: they live in a store and are passed by reference. *)
Record spreadsheet := {
  url : string;
  worksheets : gmap string worksheet;
}.

(** A remote call that does not succeed: an [APIError] with its HTTP
    status, or a failure below the API (credentials, connection). *)
Inductive fault :=
  | HttpStatus (status_code : nat)
  | Transport (what : string).

Definition exn_of_fault (f : fault) : exn :=
  match f with
  | HttpStatus code => APIError code
  | Transport what => OtherError what
  end.

Inductive call :=
  | Authorize
  | ClientOpen (title : string)
  | ClientCreate (title : string)
  | Share (title : string)
  | GetWorksheet (title name : string)
  | DelWorksheet (title name : string)
  | AddWorksheet (title name : string) (rows cols : nat)
  | GetAllValues (title name : string)
  | Clear (title name : string)
  | BatchUpdate (title name : string) (reqs : list request)
  | Sleep (seconds : nat).

Record state := {
  frames : gmap nat DataFrame;            (* the DataFrame objects *)
  dicts : gmap nat (gmap string string);  (* the dict objects *)
  spreadsheets : gmap string spreadsheet; (* the spreadsheets, by title *)
  new_url : string;                       (* the URL of the next spreadsheet created *)
  plan : list (option fault);             (* how the remote calls to come end, in order;
                                             past its end every call succeeds *)
  calls : list call;                      (* the calls made so far, oldest first *)
}.

Definition set_frames (f : gmap nat DataFrame → gmap nat DataFrame) (st : state) : state :=
  {| frames := f (frames st); dicts := dicts st; spreadsheets := spreadsheets st;
     new_url := new_url st; plan := plan st; calls := calls st |}.
Definition set_dicts (f : gmap nat (gmap string string) → gmap nat (gmap string string))
    (st : state) : state :=
  {| frames := frames st; dicts := f (dicts st); spreadsheets := spreadsheets st;
     new_url := new_url st; plan := plan st; calls := calls st |}.
Definition set_spreadsheets (f : gmap string spreadsheet → gmap string spreadsheet)
    (st : state) : state :=
  {| frames := frames st; dicts := dicts st; spreadsheets := f (spreadsheets st);
     new_url := new_url st; plan := plan st; calls := calls st |}.
Definition set_plan (p : list (option fault)) (st : state) : state :=
  {| frames := frames st; dicts := dicts st; spreadsheets := spreadsheets st;
     new_url := new_url st; plan := p; calls := calls st |}.
Definition add_call (c : call) (st : state) : state :=
  {| frames := frames st; dicts := dicts st; spreadsheets := spreadsheets st;
     new_url := new_url st; plan := plan st; calls := calls st ++ [c] |}.

(** A computation that reads and changes the state and returns a value
    or raises. *)
Definition M (A : Type) : Type := state → (exn + A) * state.

Global Instance M_ret : MRet M := λ A a st, (inr a, st).
Global Instance M_bind : MBind M := λ A B k m st,
  match m st with
  | (inr a, st') => k a st'
  | (inl e, st') => (inl e, st')
  end.

Definition raise {A} (e : exn) : M A := λ st, (inl e, st).

Definition lift {A} (r : exn + A) : M A := λ st, (r, st).

(** [try: m except ...]: the handler says which exceptions it takes. *)
Definition try_except {A} (m : M A) (handler : exn → option (M A)) : M A := λ st,
  match m st with
  | (inl e, st') =>
      match handler e with
      | Some h => h st'
      | None => (inl e, st')
      end
  | r => r
  end.

(** A remote call: it is recorded, and it ends as the plan says. *)
Definition remote (c : call) : M unit := λ st,
  let st := add_call c st in
  match plan st with
  | Some f :: rest => (inl (exn_of_fault f), set_plan rest st)
  | None :: rest => (inr (), set_plan rest st)
  | [] => (inr (), st)
  end.

Definition get_state : M state := λ st, (inr st, st).
Definition modify (f : state → state) : M unit := λ st, (inr (), f st).

Definition find_worksheet (title name : string) (st : state) : option worksheet :=
  ss ← spreadsheets st !! title; worksheets ss !! name.

Definition set_worksheet (title name : string) (ws : option worksheet) (st : state) : state :=
  set_spreadsheets
    (alter (λ ss, {| url := url ss;
                     worksheets := partial_alter (λ _, ws) name (worksheets ss) |}) title) st.

Definition authorize : M unit := remote Authorize.

(** [client.open(title)]. *)
Definition client_open (title : string) : M unit :=
  remote (ClientOpen title);;
  st ← get_state;
  match spreadsheets st !! title with
  | Some _ => mret ()
  | None => raise SpreadsheetNotFound
  end.

(** [client.create(title)]: a new spreadsheet comes with one empty
    worksheet. *)
Definition client_create (title : string) : M unit :=
  remote (ClientCreate title);;
  modify (λ st, set_spreadsheets
    (<[title := {| url := new_url st;
                   worksheets := {["Sheet1" := {| row_count := 1000; col_count := 26;
                                                  cells := ∅ |}]} |}]>) st).

Definition sheet_share (title : string) : M unit := remote (Share title).

(** [sheet.url]. *)
Definition sheet_url (title : string) : M string :=
  st ← get_state;
  match spreadsheets st !! title with
  | Some ss => mret (url ss)
  | None => raise (APIError 404)
  end.

(** [sheet.worksheet(name)]. *)
Definition sheet_worksheet (title name : string) : M unit :=
  remote (GetWorksheet title name);;
  st ← get_state;
  match find_worksheet title name st with
  | Some _ => mret ()
  | None => raise WorksheetNotFound
  end.

Definition del_worksheet (title name : string) : M unit :=
  remote (DelWorksheet title name);;
  modify (set_worksheet title name None).

(** [sheet.add_worksheet(title=name, rows=..., cols=...)]: the service
    refuses a name that is taken. *)
Definition add_worksheet (title name : string) (rows cols : nat) : M unit :=
  remote (AddWorksheet title name rows cols);;
  st ← get_state;
  match find_worksheet title name st with
  | Some _ => raise (APIError 400)
  | None =>
      modify (set_worksheet title name
                (Some {| row_count := rows; col_count := cols; cells := ∅ |}))
  end.

Definition worksheet_get_all_values (title name : string) : M (list (list string)) :=
  remote (GetAllValues title name);;
  st ← get_state;
  match find_worksheet title name st with
  | Some ws => mret (get_all_values (cells ws))
  | None => raise (APIError 404)
  end.

Definition update_cells (f : gmap (nat * nat) string → gmap (nat * nat) string)
    (title name : string) : M unit :=
  st ← get_state;
  match find_worksheet title name st with
  | Some ws =>
      modify (set_worksheet title name
                (Some {| row_count := row_count ws; col_count := col_count ws;
                         cells := f (cells ws) |}))
  | None => raise (APIError 404)
  end.

Definition worksheet_clear (title name : string) : M unit :=
  remote (Clear title name);;
  update_cells (λ _, ∅) title name.

Definition worksheet_batch_update (title name : string) (reqs : list request) : M unit :=
  remote (BatchUpdate title name reqs);;
  update_cells (λ c, apply_batch c reqs) title name.

Definition sleep (seconds : nat) : M unit := modify (add_call (Sleep seconds)).

(** [df.fillna("", inplace=True)] on the object [df] refers to. *)
Definition fillna_inplace (df : nat) (fill : string) : M unit :=
  st ← get_state;
  match frames st !! df with
  | Some d => modify (set_frames (<[df := fillna fill d]>))
  | None => raise TypeError
  end.

Definition read_frame (df : nat) : M DataFrame :=
  st ← get_state;
  match frames st !! df with
  | Some d => mret d
  | None => raise TypeError
  end.

(** Lines 44-46. *)
Definition record_sheet_url (sheet_urls : option nat) (title link : string) : M unit :=
  match sheet_urls with
  | None => mret ()
  | Some r =>
      st ← get_state;
      match dicts st !! r with
      | Some d =>
          match d !! title with
          | None => modify (set_dicts (<[r := <[title := link]> d]>))
          | Some _ => mret ()
          end
      | None => raise TypeError
      end
  end.

(** Lines 128-147. *)
Fixpoint for_each {A} (l : list A) (body : A → M unit) : M unit :=
  match l with
  | [] => mret ()
  | x :: rest => body x;; for_each rest body
  end.

Definition write_chunks (title name : string) (columns_data : list (list cell))
  : M unit :=
  for_each (seq 0 (num_chunks (length columns_data))) (λ chunk_index,
    let batch_update_requests := requests_of_chunk_index columns_data chunk_index in
    if bool_decide (batch_update_requests = []) then mret ()
    else worksheet_batch_update title name batch_update_requests).

(** Lines 63-73. *)
Definition recreate_worksheet (title name : string) (rows cols : nat) : M unit :=
  try_except (add_worksheet title name rows cols)
    (λ e, match e with
          | APIError status_code =>
              if status_code =? 409 then
                Some (sleep 5;; add_worksheet title name rows cols)
              else None
          | _ => None
          end).

Definition push_df_to_gsheet (df : nat) (google_sheet_name worksheet_name : string)
    (update_existing : bool) (sheet_urls : option nat) : M string :=
  fillna_inplace df "";;
  authorize;;
  try_except (client_open google_sheet_name)
    (λ e, match e with
          | SpreadsheetNotFound =>
              Some (client_create google_sheet_name;; sheet_share google_sheet_name)
          | _ => None
          end);;
  link ← sheet_url google_sheet_name;
  record_sheet_url sheet_urls google_sheet_name link;;
  df0 ← read_frame df;
  let '(initial_df_rows, initial_df_cols) := shape df0 in
  final ← try_except
    (sheet_worksheet google_sheet_name worksheet_name;;
     if negb update_existing then
       del_worksheet google_sheet_name worksheet_name;;
       recreate_worksheet google_sheet_name worksheet_name
         (initial_df_rows + 10) (initial_df_cols + 1);;
       mret df0
     else
       existing_data ← worksheet_get_all_values google_sheet_name worksheet_name;
       merged ← lift (merge_existing existing_data df0);
       worksheet_clear google_sheet_name worksheet_name;;
       mret merged)
    (λ e, match e with
          | WorksheetNotFound =>
              Some (add_worksheet google_sheet_name worksheet_name
                      (initial_df_rows + 10) (initial_df_cols + 1);;
                    mret df0)
          | _ => None
          end);
  let columns_data := columns_data_of (where_notnull_none final) in
  write_chunks google_sheet_name worksheet_name columns_data;;
  sheet_url google_sheet_name.

(** [pd.DataFrame(order_data)] in [main]: the keys of the dictionaries,
    in insertion order, are the labels. *)
Definition frame_of_orders (order_data : list Scraper.OrderRow) : DataFrame :=
  match order_data with
  | [] => {| columns := []; values := [] |}
  | _ =>
      {| columns := ["order_id"; "date"; "drive_link"; "amount"];
         values := (λ r, [Text (Scraper.order_id r); Text (Scraper.date r);
                          Text (Scraper.drive_link r); Text (Scraper.amount r)])
                   <$> order_data |}
  end.

End GSheet.

(** ** [main] in [src/swiggy_scraper.py], around the loop *)
Module Main.
Import PyStr Scraper GSheet.

(** The settings of the ledger that [main] reads from the environment. *)
Record sheet_config := {
  GOOGLE_SHEET_NAME : string;
  WORKSHEET_NAME : string;
}.

Definition default_sheet_config : sheet_config :=
  {| GOOGLE_SHEET_NAME := "Swiggy Work Orders"; WORKSHEET_NAME := "Orders" |}.

(** A NUL character occurs in [s]. *)
Fixpoint has_null_byte (s : string) : bool :=
  match s with
  | String c t => ascii_eqb c zero || has_null_byte t
  | EmptyString => false
  end.

(** [os.makedirs(path, exist_ok=True)] on line 69.  The empty path is
    refused with FileNotFoundError and a path that holds a NUL character
    with ValueError, whatever the file system holds; for any other path
    the file system answers: [answer] is what it raises, if it does. *)
Definition makedirs (path : string) (answer : option string) : exn + unit :=
  if bool_decide (path = "") then inl (OtherError "FileNotFoundError")
  else if has_null_byte path then inl ValueError
  else
    match answer with
    | Some what => inl (OtherError what)
    | None => inr ()
    end.

(** How the start of [main] goes after the bills directory is there, up
    to the page it works on. *)
Inductive setup :=
  | BraveMissing                (* line 76: no executable at the path; main returns *)
  | LaunchFails                 (* line 90: the launch raises; main returns *)
  | SetupRaises (what : string) (* lines 71 and 99-104: starting playwright, closing
                                   a tab or opening a page raises *)
  | Ready.

(** What the file system and the browser answer in one run of [main]. *)
Record session := {
  makedirs_error : option string;       (* what creating the bills directory raises,
                                           if it does *)
  setup_outcome : setup;
  listing : option (list detail_view);  (* the views of the buttons found at line 134;
                                           None when a step of lines 109-134 raises *)
  close_error : option string;          (* what context.close() raises, if it does *)
}.

(** [pd.DataFrame(...)]: a new object of the store. *)
Definition new_frame (d : DataFrame) : M nat := λ st,
  let r := fresh (dom (frames st)) in
  (inr r, set_frames (<[r := d]>) st).

(** Lines 268-284: the rows, when there are any, are pushed in append
    mode; an error of the push is printed and goes no further. *)
Definition publish (sc : sheet_config) (order_data : list OrderRow) : M unit :=
  match order_data with
  | [] => mret ()
  | _ =>
      df ← new_frame (frame_of_orders order_data);
      try_except
        (push_df_to_gsheet df (GOOGLE_SHEET_NAME sc) (WORKSHEET_NAME sc) true None;;
         mret ())
        (λ _, Some (mret ()))
  end.

(** [main]: the bills directory is created first, outside any handler;
    the rows collected by the loop, none when the loop is not reached,
    are published in the [finally] block, which then closes the
    browser. *)
Definition main (cfg : config) (sc : sheet_config) (s : session) : M unit :=
  lift (makedirs (BILLS_DIRECTORY cfg) (makedirs_error s));;
  match setup_outcome s with
  | BraveMissing | LaunchFails => mret ()
  | SetupRaises what => raise (OtherError what)
  | Ready =>
      let order_data :=
        match listing s with
        | Some views => Scraper.order_data (main_loop cfg views)
        | None => []
        end in
      publish sc order_data;;
      match close_error s with
      | Some what => raise (OtherError what)
      | None => mret ()
      end
  end.

End Main.

(** ** Vocabulary for the properties of the extraction loop *)
Module ScraperSpec.
Import PyStr Scraper.

(** [s.replace(c, new)] for a one-character [c], by recursion on [s]. *)
Fixpoint subst_char (c : ascii) (new s : string) : string :=
  match s with
  | String b t =>
      if ascii_eqb c b then new +:+ subst_char c new t
      else String b (subst_char c new t)
  | EmptyString => EmptyString
  end.

(** The character [c] occurs in [s]. *)
Fixpoint contains (c : ascii) (s : string) : bool :=
  match s with
  | String b t => ascii_eqb c b || contains c t
  | EmptyString => false
  end.

(** *** Sample orders

    A qualifying order whose fields are all read and whose capture is
    uploaded. *)
Definition order_1 : detail_view :=
  {| buttons_found := 2; click_ok := true; location_found := true;
     amount_probe := InnerText "250"; order_id_probe := InnerText "Order #111";
     date_text := Some "Delivered on Mon, 5 Jan 2024, 10:30 AM";
     screenshot_ok := true; drive_file_id := Some "f1"; reload_ok := true |}.

(** A qualifying order whose date container cannot be read. *)
Definition order_2 : detail_view :=
  {| buttons_found := 2; click_ok := true; location_found := true;
     amount_probe := InnerText "90"; order_id_probe := InnerText "Order #222";
     date_text := None;
     screenshot_ok := true; drive_file_id := Some "f2"; reload_ok := true |}.

(** A qualifying order whose capture is not uploaded. *)
Definition order_3 : detail_view :=
  {| buttons_found := 1; click_ok := true; location_found := true;
     amount_probe := InnerText "250"; order_id_probe := InnerText "Order #111";
     date_text := Some "Delivered on Mon, 5 Jan 2024, 10:30 AM";
     screenshot_ok := true; drive_file_id := None; reload_ok := true |}.

(** *** Where the rows and the captures come from *)

(** The row is the one that [main] appends for the view [v]: the link is
    the one of the file that Drive returned for [v], the identifier and
    the amount are read from [v]. *)
Definition from_view (v : detail_view) (r : OrderRow) : Prop :=
  location_found v = true ∧ screenshot_ok v = true
  ∧ upload_to_drive (drive_file_id v) = Some (drive_link r)
  ∧ order_id r = or_unknown (extract_order_id (order_id_probe v))
  ∧ amount r = or_unknown (extract_amount (amount_probe v)).

(** The events of the captures at [paths]: each one is written and then
    uploaded under its base name. *)
Definition captures (paths : list string) : list event :=
  paths ≫= λ p, [Screenshot p; Upload p (basename p)].

(** The phrase "delivered on" occurs in [s], in any case of its letters. *)
Fixpoint mentions_delivered_on (s : string) : bool :=
  match s with
  | String _ t =>
      match strip_prefix_by ignorecase_eqb "delivered on" s with
      | Some _ => true
      | None => mentions_delivered_on t
      end
  | EmptyString => false
  end.

End ScraperSpec.

(** ** Vocabulary for the properties of the ledger synchronizer *)
Module GSheetSpec.
Import GSheet.

(** [m] ends, whatever the outcome, in a state on which [f] is what it
    was. *)
Definition keeps {A B} (f : state → B) (m : M A) : Prop := ∀ st, f (m st).2 = f st.

(** The rows and columns of the grid of the worksheet [w] of [g]. *)
Definition worksheet_size (g w : string) (st : state) : option (nat * nat) :=
  (λ ws, (row_count ws, col_count ws)) <$> find_worksheet g w st.

(** The [sheet_urls] argument is None or refers to a dict of the store. *)
Definition urls_ok (sheet_urls : option nat) (st : state) : Prop :=
  match sheet_urls with
  | Some r => is_Some (dicts st !! r)
  | None => True
  end.

(** The call is a [worksheet.batch_update]. *)
Definition is_batch_update (c : call) : Prop :=
  match c with
  | BatchUpdate _ _ _ => True
  | _ => False
  end.

(** [reqs] touches the rows from [lo] to [hi], all of them and no other. *)
Definition covers (reqs : list request) (lo hi : nat) : Prop :=
  (∀ rq, rq ∈ reqs → lo ≤ range_row rq ≤ hi)
  ∧ (∀ r, lo ≤ r ≤ hi → ∃ rq, rq ∈ reqs ∧ range_row rq = r).

(** The cells of a worksheet that was cleared and then received the
    table [t], header first. *)
Definition cells_of_table (t : list (list string)) : gmap (nat * nat) string :=
  apply_batch ∅ (chunk_requests start_row (map_cells Text t)).

(** A table comes back from the worksheet as it was written when its
    last row and its last column are not blank. *)
Definition tight (t : list (list string)) : Prop :=
  (∃ row, last t = Some row ∧ Exists (λ s, s ≠ "") row)
  ∧ Exists (λ row, ∃ s, last row = Some s ∧ s ≠ "") t.

(** Every row of the table has [n] cells. *)
Definition width (n : nat) (t : list (list string)) : Prop :=
  Forall (λ row, length row = n) t.

(** The identifier of a row: its first cell, as a string. *)
Definition row_key (row : list cell) : string := astype_str (default NaN (row !! 0)).

(** The identifiers of the rows, as a set. *)
Definition keys_of (rows : list (list cell)) : gset string :=
  list_to_set (row_key <$> rows).

(** The rows of the worksheet that an append keeps: none when the new
    frame has no rows, and otherwise those whose identifier is not an
    identifier of the new frame. *)
Definition kept_rows (rows : list (list string)) (new_rows : list (list cell))
  : list (list string) :=
  match new_rows with
  | [] => []
  | _ => filter (λ row, row_key (Text <$> row) ∉ keys_of new_rows) rows
  end.

(** Every row of the frame has one cell per label. *)
Definition rectangular (df : DataFrame) : Prop :=
  Forall (λ row, length row = length (columns df)) (values df).

(** What [get_all_values] returns for the worksheet [w] of [g]; nothing
    when there is no such worksheet. *)
Definition sheet_table (g w : string) (st : state) : list (list string) :=
  match find_worksheet g w st with
  | Some ws => get_all_values (cells ws)
  | None => []
  end.

(** The rows as the strings that [astype(str)] gives. *)
Definition texts (rows : list (list cell)) : list (list string) :=
  map_cells astype_str rows.

(** The table a frame stands for once its missing cells are filled:
    the labels, then the rows as text. *)
Definition table_of (d : DataFrame) : list (list string) :=
  columns d :: texts (values (fillna "" d)).

(** The frames on which the model of pandas is exact: one cell per label
    in every row, labels that are distinct, at least one label. *)
Definition well_formed (d : DataFrame) : Prop :=
  rectangular d ∧ NoDup (columns d) ∧ columns d ≠ [].

(** A well-formed frame whose table comes back from the worksheet as it
    was written. *)
Definition presentable (d : DataFrame) : Prop :=
  well_formed d ∧ tight (table_of d).

(** The worksheet is blank or absent, or its first row is the labels of
    the frame. *)
Definition compatible (g w : string) (d : DataFrame) (st : state) : Prop :=
  sheet_table g w st = [] ∨ head (sheet_table g w st) = Some (columns d).

(** The table that an append of [d] leaves, from what the worksheet
    returned. *)
Definition merged_table (existing : list (list string)) (d : DataFrame)
  : list (list string) :=
  columns d :: kept_rows (tail existing) (values (fillna "" d))
            ++ texts (values (fillna "" d)).

(** *** Sample frames and stores *)
Definition ledger_columns : list string := ["order_id"; "date"; "drive_link"; "amount"].

Definition frame_a : DataFrame :=
  {| columns := ledger_columns;
     values := [[Text "111"; Text "Mon, 5 Jan"; Text "link-a"; Text "250"]] |}.

Definition frame_b : DataFrame :=
  {| columns := ledger_columns;
     values := [[Text "222"; NaN; Text "link-b"; Text "90"]] |}.

Definition frame_empty : DataFrame :=
  {| columns := ledger_columns; values := [] |}.

Definition frame_twice : DataFrame :=
  {| columns := ledger_columns;
     values := [[Text "111"; Text "Mon, 5 Jan"; Text "link-a"; Text "250"];
                [Text "111"; Text "Tue, 6 Jan"; Text "link-c"; Text "75"]] |}.

Definition old_table : list (list string) :=
  [ledger_columns;
   ["111"; "Sun, 4 Jan"; "link-old"; "Unknown"];
   ["333"; "Sat, 3 Jan"; "link-3"; "40"]].

(** A store in which the frames above are the objects 0 to 3, and the
    spreadsheet "Swiggy Work Orders" has the worksheet "Orders" with the
    given cells. *)
Definition ledger (ws_cells : gmap (nat * nat) string) : state :=
  {| frames := {[0 := frame_a; 1 := frame_b; 2 := frame_empty; 3 := frame_twice]};
     dicts := ∅;
     spreadsheets :=
       {["Swiggy Work Orders" :=
           {| url := "https://docs.google.com/spreadsheets/d/1";
              worksheets := {["Orders" := {| row_count := 12; col_count := 5;
                                             cells := ws_cells |}]} |}]};
     new_url := "https://docs.google.com/spreadsheets/d/2";
     plan := [];
     calls := [] |}.

(** The same store before the spreadsheet exists. *)
Definition no_ledger : state :=
  {| frames := {[0 := frame_a; 1 := frame_b; 2 := frame_empty; 3 := frame_twice]};
     dicts := ∅;
     spreadsheets := ∅;
     new_url := "https://docs.google.com/spreadsheets/d/2";
     plan := [];
     calls := [] |}.

(** The store with the old table in the worksheet, and remote calls that
    end as [p] says. *)
Definition ledger_with_plan (p : list (option fault)) : state :=
  set_plan p (ledger (cells_of_table old_table)).

(** 7001 rows of one cell. *)
Definition big_table : list (list cell) := replicate 7001 [Text "x"].

(** *** What a call leaves alone *)

(** [m] ends, whatever the outcome, in a state that [R] relates to the
    state it started in. *)
Definition respects {A} (R : state → state → Prop) (m : M A) : Prop :=
  ∀ st, R st (m st).2.

(** What a call for the worksheet [w] of the spreadsheet [g] with the
    dictionary [sheet_urls] may change: the other spreadsheets stay, a
    spreadsheet [g] that is there stays, with its URL and its other
    worksheets; the other dictionaries stay, and a dictionary keeps its
    entries and gains none but one under [g], whose value is then the
    URL of the spreadsheet. *)
Definition changes_only (g w : string) (sheet_urls : option nat)
    (st st' : state) : Prop :=
  (∀ g', g' ≠ g → spreadsheets st' !! g' = spreadsheets st !! g')
  ∧ (∀ ss, spreadsheets st !! g = Some ss →
       ∃ ss', spreadsheets st' !! g = Some ss' ∧ url ss' = url ss
              ∧ ∀ w', w' ≠ w → worksheets ss' !! w' = worksheets ss !! w')
  ∧ (∀ r, sheet_urls ≠ Some r → dicts st' !! r = dicts st !! r)
  ∧ (∀ r dd, dicts st !! r = Some dd →
       ∃ dd', dicts st' !! r = Some dd' ∧ dd ⊆ dd'
              ∧ (∀ k, k ≠ g → dd' !! k = dd !! k)
              ∧ (∀ v, dd' !! g = Some v →
                   dd !! g = Some v
                   ∨ ∃ ss', spreadsheets st' !! g = Some ss' ∧ url ss' = v)).

(** *** More sample stores *)

(** A frame whose first label is not the one of the ledger. *)
Definition frame_renamed : DataFrame :=
  {| columns := ["id"; "date"; "drive_link"; "amount"];
     values := [[Text "444"; Text "Wed, 7 Jan"; Text "link-d"; Text "60"]] |}.

(** The store with the old table in the worksheet and one more frame, the
    object 4. *)
Definition ledger_with_frame (d : DataFrame) : state :=
  set_frames (<[4 := d]>) (ledger (cells_of_table old_table)).

(** The store with the old table in the worksheet and a dictionary, the
    object 0. *)
Definition ledger_with_dict (dd : gmap string string) : state :=
  set_dicts (<[0 := dd]>) (ledger (cells_of_table old_table)).

End GSheetSpec.

(** ** Vocabulary for the properties of a whole run *)
Module MainSpec.
Import Scraper GSheet Main.

(** The row of the ledger for a row of [order_data]. *)
Definition ledger_row (r : OrderRow) : list string :=
  [Scraper.order_id r; Scraper.date r; Scraper.drive_link r; Scraper.amount r].

(** A session in which the bills directory can be created and the loop
    is reached, with the given views. *)
Definition session_of (views : list detail_view) : session :=
  {| makedirs_error := None; setup_outcome := Ready; listing := Some views;
     close_error := None |}.

(** The bills directory of the settings is a path that [os.makedirs]
    takes. *)
Definition usable_directory (cfg : config) : Prop :=
  BILLS_DIRECTORY cfg ≠ "" ∧ has_null_byte (BILLS_DIRECTORY cfg) = false.



End MainSpec.

(** * Properties of the extraction loop *)
Module ScraperFacts.
Import PyStr Scraper ScraperSpec.

Lemma replace_go_char c new s fuel :
  String.length s < fuel →
  replace_go fuel (String c EmptyString) new s = subst_char c new s.
Proof.
  revert s. induction fuel as [|fuel IH]; intros s Hlen; [lia|].
  destruct s as [|b t]; [reflexivity|].
  cbn [replace_go strip_prefix_by subst_char].
  cbn [String.length] in Hlen.
  destruct (ascii_eqb c b); rewrite IH by lia; reflexivity.
Qed.

Lemma replace_char c new s :
  replace (String c EmptyString) new s = subst_char c new s.
Proof. unfold replace. apply replace_go_char. lia. Qed.

Lemma contains_app c s t : contains c (s +:+ t) = contains c s || contains c t.
Proof.
  induction s as [|b s IH]; [reflexivity|].
  simpl. rewrite IH. by rewrite orb_assoc.
Qed.

Lemma subst_char_removes c new s :
  contains c new = false → contains c (subst_char c new s) = false.
Proof.
  intros Hnew. induction s as [|b t IH]; [reflexivity|].
  cbn [subst_char]. destruct (ascii_eqb c b) eqn:Hcb.
  - by rewrite contains_app, Hnew, IH.
  - cbn [contains]. by rewrite Hcb, IH.
Qed.

Lemma subst_char_keeps_out d c new s :
  contains d new = false → contains d s = false →
  contains d (subst_char c new s) = false.
Proof.
  intros Hnew. induction s as [|b t IH]; [reflexivity|].
  cbn [subst_char contains]. intros [Hdb Ht]%orb_false_elim.
  destruct (ascii_eqb c b).
  - by rewrite contains_app, Hnew, IH.
  - cbn [contains]. by rewrite Hdb, IH.
Qed.

(** The sanitized date holds no comma, no space and no colon. *)
Lemma sanitize_clean s :
  contains "," (sanitize s) = false ∧ contains " " (sanitize s) = false
  ∧ contains ":" (sanitize s) = false.
Proof.
  unfold sanitize. rewrite !replace_char.
  assert (H1 : contains "," (subst_char "," "" s) = false)
    by (by apply subst_char_removes).
  assert (H2 : contains " " (subst_char " " "_" (subst_char "," "" s)) = false)
    by (by apply subst_char_removes).
  split_and!.
  - by do 2 (apply subst_char_keeps_out; [done|]).
  - by apply subst_char_keeps_out.
  - by apply subst_char_removes.
Qed.

Lemma drop_chars_length n s : String.length (drop_chars n s) ≤ String.length s.
Proof.
  revert s. induction n as [|n IH]; intros [|c t]; cbn; try lia.
  specialize (IH t). lia.
Qed.

(** C7 (as the code has it): the text left of the first line break has
    every match of "delivered on" and the whitespace after it removed,
    whatever the case of its letters, and is stripped; commas are
    deleted, spaces and colons become underscores.  The validity check
    is made on that sanitized string, before the truncation: when it is
    longer than 50 characters or blank the default name is kept, and
    otherwise the path is the bills directory joined with the sanitized
    string without its first 4 characters, followed by ".png".  A
    truncated string longer than 50 characters therefore always falls
    back. *)
Theorem extract_date_filename cfg i old full_text date_line :
  splitlines_first full_text = Some date_line →
  let sanitized := sanitize (strip (re_sub_delivered_on date_line)) in
  let path := (extract_date cfg i old (Some full_text)).2 in
  (contains "," sanitized = false ∧ contains " " sanitized = false
   ∧ contains ":" sanitized = false)
  ∧ path =
      (if (50 <? String.length sanitized) || bool_decide (strip sanitized = "")
       then default_screenshot_path i
       else path_join (BILLS_DIRECTORY cfg) (drop_chars 4 sanitized +:+ ".png"))
  ∧ (50 < String.length (drop_chars 4 sanitized) → path = default_screenshot_path i).
Proof.
  intros Hline sanitized path.
  assert (Hpath : path =
      (if (50 <? String.length sanitized) || bool_decide (strip sanitized = "")
       then default_screenshot_path i
       else path_join (BILLS_DIRECTORY cfg) (drop_chars 4 sanitized +:+ ".png"))).
  { subst path sanitized. unfold extract_date. rewrite Hline.
    case_bool_decide as Hempty.
    - rewrite Hempty. reflexivity.
    - by destruct (_ || _). }
  split; [apply sanitize_clean | split; [exact Hpath|]].
  intros Hlong. rewrite Hpath.
  pose proof (drop_chars_length 4 sanitized) as Hle.
  assert (Hlt : (50 <? String.length sanitized) = true) by (apply Nat.ltb_lt; lia).
  by rewrite Hlt.
Qed.

(** The example of the specification: the derived name is
    "_5_Jan_2024_10_30.png" in the bills directory. *)
Lemma extract_date_filename_example :
  (extract_date default_config 0 None
     (Some "Delivered on, Mon, 5 Jan 2024, 10:30")).2
  = "./bills/_5_Jan_2024_10_30.png".
Proof.
  exact (proj1 (proj2 (extract_date_filename default_config 0 None
                  "Delivered on, Mon, 5 Jan 2024, 10:30"
                  "Delivered on, Mon, 5 Jan 2024, 10:30" eq_refl))).
Defined.

(** C7 as stated fails: a sanitized date of at most 4 characters leaves
    nothing after the truncation, and the name is then ".png" in the
    bills directory, not the default name. *)
Lemma truncated_empty_no_fallback :
  ¬ (∀ cfg i old full_text date_line,
       splitlines_first full_text = Some date_line →
       let truncated :=
         drop_chars 4 (sanitize (strip (re_sub_delivered_on date_line))) in
       truncated = "" ∨ 50 < String.length truncated →
       (extract_date cfg i old (Some full_text)).2 = default_screenshot_path i).
Proof.
  intros H.
  specialize (H default_config 0 None "Delivered on Mon" "Delivered on Mon"
                eq_refl (or_introl eq_refl)).
  vm_compute in H. discriminate H.
Qed.

(** C8 at the failing input: the date container of the second order
    cannot be read, and its row carries the date of the first order
    instead of "Unknown". *)
Theorem stale_date_in_second_row :
  order_data (main_loop default_config [order_1; order_2]) =
    [ {| order_id := "111"; date := "Mon, 5 Jan 2024, 10:30 AM";
         drive_link := "https://drive.google.com/file/d/f1/view?usp=sharing";
         amount := "250" |};
      {| order_id := "222"; date := "Mon, 5 Jan 2024, 10:30 AM";
         drive_link := "https://drive.google.com/file/d/f2/view?usp=sharing";
         amount := "90" |} ].
Proof. vm_compute. reflexivity. Qed.

(** The row of a qualifying order whose capture is uploaded: the amount
    and the identifier come from this order's view alone, the date from
    the binding of [date_part], which is this order's only when its date
    block got as far as the assignment. *)
Lemma process_detail_row cfg i v st link :
  location_found v = true → screenshot_ok v = true →
  upload_to_drive (drive_file_id v) = Some link →
  order_data (process_detail cfg i v st) =
    order_data st ++
      [ {| order_id := or_unknown (extract_order_id (order_id_probe v));
           date := or_unknown (extract_date cfg i (date_part st) (date_text v)).1;
           drive_link := link;
           amount := or_unknown (extract_amount (amount_probe v)) |} ].
Proof.
  intros Hloc Hshot Hup. unfold process_detail.
  rewrite Hloc, Hshot. cbn [negb].
  destruct (extract_date _ _ _ _) as [dp path]. rewrite Hup.
  destruct (drive_file_id v) as [id|]; [|discriminate].
  injection Hup as <-. reflexivity.
Qed.

(** C9: when the uploader returns no link for a qualifying order whose
    capture was taken, the rows are left as they were; the capture was
    written before the upload, and the upload was attempted once. *)
Theorem upload_failure_adds_no_row cfg i v st :
  location_found v = true →
  screenshot_ok v = true →
  upload_to_drive (drive_file_id v) = None →
  let st' := process_detail cfg i v st in
  let path := (extract_date cfg i (date_part st) (date_text v)).2 in
  order_data st' = order_data st
  ∧ log st' = log st ++ [Screenshot path; Upload path (basename path)].
Proof.
  intros Hloc Hshot Hup. unfold process_detail.
  rewrite Hloc, Hshot, Hup. cbn [negb truthy].
  by destruct (extract_date _ _ _ _) as [dp path].
Qed.

Lemma upload_failure_adds_no_row_example :
  order_data (process_detail default_config 0 order_3 initial_locals) = []
  ∧ log (process_detail default_config 0 order_3 initial_locals) =
      [Screenshot "./bills/5_Jan_2024_10_30_AM.png";
       Upload "./bills/5_Jan_2024_10_30_AM.png" "5_Jan_2024_10_30_AM.png"].
Proof.
  exact (upload_failure_adds_no_row default_config 0 order_3 initial_locals
           eq_refl eq_refl eq_refl).
Defined.

(** ** The fields read from a view *)
Lemma or_unknown_nonempty o : or_unknown o ≠ "".
Proof. destruct o as [s|]; simpl; [case_bool_decide|]; done. Qed.

Lemma lstrip_idem s : lstrip (lstrip s) = lstrip s.
Proof.
  induction s as [|c t IH]; [done|]. simpl.
  destruct (isspace c) eqn:Hc; [done|]. simpl. by rewrite Hc.
Qed.

Lemma lstrip_head s c t : lstrip s = String c t → isspace c = false.
Proof.
  induction s as [|b s IH]; [done|]. simpl.
  destruct (isspace b) eqn:Hb; [done|]. by intros [= <- _].
Qed.

Lemma rstrip_idem s : rstrip (rstrip s) = rstrip s.
Proof.
  induction s as [|c t IH]; [done|]. cbn [rstrip].
  destruct (rstrip t) as [|d t'] eqn:Ht.
  - destruct (isspace c) eqn:Hc; [done|]. simpl. by rewrite Hc.
  - cbn [rstrip]. cbn [rstrip] in IH. by rewrite IH.
Qed.

Lemma rstrip_head s c t : rstrip s = String c t → ∃ t', s = String c t'.
Proof.
  destruct s as [|b s]; [done|]. cbn [rstrip].
  destruct (rstrip s); [destruct (isspace b)|]; intros [= <- _]; eauto.
Qed.

Lemma lstrip_clean s :
  match s with String c _ => isspace c = false | EmptyString => True end →
  lstrip s = s.
Proof. destruct s as [|c t]; [done|]. simpl. by intros ->. Qed.

Lemma strip_idem s : strip (strip s) = strip s.
Proof.
  unfold strip. rewrite (lstrip_clean (rstrip (lstrip s))); [apply rstrip_idem|].
  destruct (rstrip (lstrip s)) as [|c t] eqn:Hr; [done|].
  apply rstrip_head in Hr as [t' Hl]. by eapply lstrip_head.
Qed.

Lemma strip_lstrip s : strip (lstrip s) = strip s.
Proof. unfold strip. by rewrite lstrip_idem. Qed.

(** X1: neither the identifier nor the date that are read from a view carry
    whitespace at their ends. *)
Theorem extracted_fields_are_stripped cfg i old (p : probe) (text line : string) :
  (∀ s, extract_order_id p = Some s → strip s = s)
  ∧ (splitlines_first text = Some line →
     ∃ s, (extract_date cfg i old (Some text)).1 = Some s ∧ strip s = s).
Proof.
  split.
  - intros s. destruct p as [| |t]; simpl; try done.
    intros [= <-]. apply strip_idem.
  - intros Hline. exists (strip (re_sub_delivered_on line)).
    split; [|apply strip_idem].
    unfold extract_date. rewrite Hline.
    case_bool_decide; [done|]. by destruct (_ || _).
Qed.

Lemma extracted_fields_are_stripped_example :
  extract_order_id (InnerText "  Order #42 ") = Some "42"
  ∧ ∃ s, (extract_date default_config 0 None (Some " delivered ON  Mon, 5 Jan ")).1 = Some s
         ∧ strip s = s.
Proof.
  destruct (extracted_fields_are_stripped default_config 0 None
              (InnerText "  Order #42 ") " delivered ON  Mon, 5 Jan "
              " delivered ON  Mon, 5 Jan ") as [_ Hdate].
  split; [reflexivity|]. apply Hdate. reflexivity.
Defined.

Lemma ascii_eqb_refl a : ascii_eqb a a = true.
Proof. unfold ascii_eqb. by apply bool_decide_eq_true. Qed.

Lemma strip_prefix_by_app p s : strip_prefix_by ascii_eqb p (p +:+ s) = Some s.
Proof.
  induction p as [|a p IH]; [by destruct s|].
  simpl. by rewrite ascii_eqb_refl.
Qed.

Lemma replace_go_no_first c p new s fuel :
  contains c s = false → replace_go fuel (String c p) new s = s.
Proof.
  revert s. induction fuel as [|fuel IH]; intros s Hs; [done|].
  destruct s as [|b t]; [done|].
  cbn [contains] in Hs. apply orb_false_elim in Hs as [Hb Ht].
  cbn [replace_go strip_prefix_by]. rewrite Hb. by rewrite IH.
Qed.

Lemma replace_go_prefix fuel old new s :
  replace_go (S fuel) old new (old +:+ s) = new +:+ replace_go fuel old new s.
Proof. cbn [replace_go]. by rewrite strip_prefix_by_app. Qed.

(** X2: the label "Order #" before an identifier without the letter O is
    removed, and a text without that letter is kept: in both cases the
    identifier is the text that is left, stripped. *)
Theorem order_id_of_label id :
  contains "O" id = false →
  extract_order_id (InnerText ("Order #" +:+ id)) = Some (strip id)
  ∧ extract_order_id (InnerText id) = Some (strip id).
Proof.
  intros Hid. unfold extract_order_id, replace. split.
  - rewrite replace_go_prefix.
    by rewrite (replace_go_no_first "O" "rder #" "" id).
  - by rewrite (replace_go_no_first "O" "rder #" "" id).
Qed.

Lemma order_id_of_label_example :
  extract_order_id (InnerText "Order #210866936984562") = Some "210866936984562".
Proof.
  exact (proj1 (order_id_of_label "210866936984562" eq_refl)).
Defined.

Lemma re_sub_no_mention fuel s :
  mentions_delivered_on s = false → re_sub_delivered_on_go fuel s = s.
Proof.
  revert s. induction fuel as [|fuel IH]; intros s Hs; [done|].
  destruct s as [|c t]; [done|].
  cbn [mentions_delivered_on] in Hs. cbn [re_sub_delivered_on_go].
  destruct (strip_prefix_by ignorecase_eqb "delivered on" (String c t)); [done|].
  by rewrite IH.
Qed.

(** X3: the date of a line: a line that does not hold the phrase
    "delivered on" is taken whole, and a line that starts with it, in
    any case of its letters, and does not hold it again gives what
    follows the phrase; both stripped. *)
Theorem date_part_of_line cfg i old text line :
  splitlines_first text = Some line →
  (mentions_delivered_on line = false →
   (extract_date cfg i old (Some text)).1 = Some (strip line))
  ∧ (∀ rest,
       strip_prefix_by ignorecase_eqb "delivered on" line = Some rest →
       mentions_delivered_on (lstrip rest) = false →
       (extract_date cfg i old (Some text)).1 = Some (strip rest)).
Proof.
  intros Hline.
  assert (Hdate : (extract_date cfg i old (Some text)).1 =
                  Some (strip (re_sub_delivered_on line))).
  { unfold extract_date. rewrite Hline.
    case_bool_decide; [done|]. by destruct (_ || _). }
  rewrite Hdate. split.
  - intros Hno. unfold re_sub_delivered_on. by rewrite re_sub_no_mention.
  - intros rest Hrest Hno. unfold re_sub_delivered_on.
    cbn [re_sub_delivered_on_go]. rewrite Hrest.
    by rewrite re_sub_no_mention, strip_lstrip.
Qed.

Lemma date_part_of_line_example :
  (extract_date default_config 0 None
     (Some "DELIVERED ON   Wed, 4 Dec 2024, 9:05 PM
Paid via card")).1 = Some "Wed, 4 Dec 2024, 9:05 PM".
Proof.
  exact (proj2 (date_part_of_line default_config 0 None
                  "DELIVERED ON   Wed, 4 Dec 2024, 9:05 PM
Paid via card"
                  "DELIVERED ON   Wed, 4 Dec 2024, 9:05 PM" eq_refl)
           "   Wed, 4 Dec 2024, 9:05 PM" eq_refl eq_refl).
Defined.

Lemma index_slash s : String.index 0 "/" s = None ↔ contains "/" s = false.
Proof.
  induction s as [|c t IH]; [done|].
  cbn [String.index String.prefix contains]. unfold ascii_eqb.
  destruct (ascii_dec "/" c) as [<-|Hne].
  - rewrite bool_decide_eq_true_2 by done. by destruct t.
  - rewrite bool_decide_eq_false_2 by done. simpl.
    destruct (String.index 0 "/" t); [|tauto].
    split; [done|]. intros Ht. by apply IH in Ht.
Qed.

Lemma ascii_eqb_sym a b : ascii_eqb a b = ascii_eqb b a.
Proof. unfold ascii_eqb. apply bool_decide_ext. naive_solver. Qed.

Lemma basename_no_slash s : contains "/" s = false → basename s = s.
Proof.
  destruct s as [|c t]; [done|]. cbn [contains basename].
  rewrite (ascii_eqb_sym c).
  intros [-> Ht]%orb_false_elim. apply index_slash in Ht. by rewrite Ht.
Qed.

Lemma basename_after_slash a b : basename (a +:+ String "/" b) = basename b.
Proof.
  induction a as [|c a IH]; [done|].
  simpl. rewrite IH.
  destruct (ascii_eqb c "/"); [done|].
  destruct (String.index 0 "/" (a +:+ String "/" b)) eqn:Hidx; [done|].
  apply index_slash in Hidx. rewrite contains_app in Hidx.
  apply orb_false_elim in Hidx as [_ Hidx]. cbn [contains] in Hidx.
  by rewrite ascii_eqb_refl in Hidx.
Qed.

Lemma endswith_slash_split a : endswith_slash a = true → ∃ a', a = a' +:+ "/".
Proof.
  induction a as [|c a IH]; [done|]. cbn [endswith_slash].
  destruct a as [|d a].
  - unfold ascii_eqb. intros ->%bool_decide_eq_true. by exists "".
  - intros [a' Ha]%IH. exists (String c a'). rewrite Ha. reflexivity.
Qed.

Lemma append_assoc_slash a b c : (a +:+ b) +:+ c = a +:+ (b +:+ c).
Proof.
  induction a as [|x a IH]; [done|].
  change (String x ((a +:+ b) +:+ c) = String x (a +:+ (b +:+ c))).
  by rewrite IH.
Qed.

Lemma basename_path_join a b : basename (path_join a b) = basename b.
Proof.
  unfold path_join. destruct (startswith_slash b); [done|].
  case_bool_decide as Ha; [by subst|]. simpl.
  destruct (endswith_slash a) eqn:Hend.
  - apply endswith_slash_split in Hend as [a' ->].
    rewrite append_assoc_slash. apply basename_after_slash.
  - change (a +:+ "/" +:+ b) with (a +:+ String "/" b).
    apply basename_after_slash.
Qed.

(** X4: the name under which a capture is uploaded does not depend on the
    bills directory; and for a date that passes the check and, once
    sanitized, holds no slash, it is the sanitized date without its
    first 4 characters, followed by ".png". *)
Theorem upload_name_of_date cfg cfg' i old text line :
  basename (extract_date cfg i old text).2 = basename (extract_date cfg' i old text).2
  ∧ (text ≫= splitlines_first = Some line →
     let sanitized := sanitize (strip (re_sub_delivered_on line)) in
     strip sanitized ≠ "" → String.length sanitized ≤ 50 →
     contains "/" sanitized = false →
     basename (extract_date cfg i old text).2 = drop_chars 4 sanitized +:+ ".png").
Proof.
  split.
  - unfold extract_date. destruct text as [t|]; [|done].
    destruct (splitlines_first t) as [l|]; [|done].
    case_bool_decide; [done|]. destruct (_ || _); [done|].
    cbn [snd]. by rewrite !basename_path_join.
  - intros Hline sanitized Hne Hlen Hslash.
    destruct text as [t|]; [|done]. simpl in Hline.
    unfold extract_date. rewrite Hline. fold sanitized.
    case_bool_decide as Hempty.
    { subst sanitized. rewrite Hempty in Hne. by destruct Hne. }
    assert (Hcheck : (50 <? String.length sanitized)
                     || bool_decide (strip sanitized = "") = false).
    { apply orb_false_intro; [by apply Nat.ltb_ge|by apply bool_decide_eq_false]. }
    rewrite Hcheck. cbn [snd]. rewrite basename_path_join.
    apply basename_no_slash. rewrite contains_app. apply orb_false_intro; [|done].
    clear -Hslash. generalize 4. revert Hslash.
    induction sanitized as [|c s IH]; intros Hs n; [by destruct n|].
    destruct n as [|n]; [done|]. cbn [drop_chars].
    cbn [contains] in Hs. apply orb_false_elim in Hs as [_ Hs]. by apply IH.
Qed.

Lemma upload_name_of_date_example :
  basename (extract_date default_config 0 None
              (Some "Delivered on Mon, 5 Jan 2024, 10:30 AM")).2
  = "5_Jan_2024_10_30_AM.png".
Proof.
  refine (proj2 (upload_name_of_date default_config default_config 0 None
                   (Some "Delivered on Mon, 5 Jan 2024, 10:30 AM")
                   "Delivered on Mon, 5 Jan 2024, 10:30 AM") eq_refl _ _ eq_refl).
  - vm_compute. discriminate.
  - vm_compute. lia.
Defined.

Lemma append_inj_l s a b : s +:+ a = s +:+ b → a = b.
Proof.
  induction s as [|c s IH]; [done|].
  change (String c (s +:+ a) = String c (s +:+ b) → a = b).
  intros [= H]. by apply IH.
Qed.

Lemma length_append a b : String.length (a +:+ b) = String.length a + String.length b.
Proof.
  induction a as [|c a IH]; [done|].
  change (S (String.length (a +:+ b)) = S (String.length a + String.length b)).
  by rewrite IH.
Qed.

Lemma append_inj_r s a b : a +:+ s = b +:+ s → a = b.
Proof.
  revert b. induction a as [|c a IH]; intros [|d b] Heq; [done| | |].
  - apply (f_equal String.length) in Heq.
    rewrite !length_append in Heq. simpl in Heq. lia.
  - apply (f_equal String.length) in Heq.
    rewrite !length_append in Heq. simpl in Heq. lia.
  - change (String c (a +:+ s) = String d (b +:+ s)) in Heq.
    injection Heq as -> Heq. f_equal. by apply IH.
Qed.

(** [int(str(n))] is [n]. *)
Lemma str_of_nat_parse n :
  Nat.of_uint <$> NilZero.uint_of_string (str_of_nat n) = Some n.
Proof.
  unfold str_of_nat.
  destruct (Nat.to_uint n) as [| | | | | | | | | |] eqn:Hn;
    [rewrite NilZero.usu_nil|rewrite NilZero.usu by done..];
    rewrite <- (Unsigned.of_to n), Hn; reflexivity.
Qed.

Lemma str_of_nat_inj n m : str_of_nat n = str_of_nat m → n = m.
Proof.
  intros Heq. pose proof (str_of_nat_parse n) as Hn.
  rewrite Heq, str_of_nat_parse in Hn. by injection Hn.
Qed.

Lemma digits_no_slash d : contains "/" (NilEmpty.string_of_uint d) = false.
Proof. induction d; simpl; try done. Qed.

Lemma str_of_nat_no_slash n : contains "/" (str_of_nat n) = false.
Proof.
  unfold str_of_nat, NilZero.string_of_uint.
  destruct (Nat.to_uint n) eqn:Hn; [done|rewrite <- Hn; apply digits_no_slash..].
Qed.

(** X5: the default names of two orders of a run differ, and a default name
    is uploaded under that very name. *)
Theorem default_paths_distinct i j :
  (default_screenshot_path i = default_screenshot_path j → i = j)
  ∧ basename (default_screenshot_path i) = default_screenshot_path i.
Proof.
  split.
  - unfold default_screenshot_path. intros Heq.
    apply append_inj_l, append_inj_r, str_of_nat_inj in Heq. lia.
  - apply basename_no_slash. unfold default_screenshot_path.
    rewrite !contains_app, str_of_nat_no_slash. reflexivity.
Qed.

Lemma default_paths_distinct_example :
  default_screenshot_path 9 ≠ default_screenshot_path 10.
Proof.
  intros Heq. apply (default_paths_distinct 9 10) in Heq. discriminate Heq.
Defined.

Lemma process_detail_new_row cfg i v st :
  order_data (process_detail cfg i v st) = order_data st
  ∨ ∃ r, order_data (process_detail cfg i v st) = order_data st ++ [r]
         ∧ from_view v r ∧ date r ≠ "".
Proof.
  unfold process_detail.
  destruct (location_found v) eqn:Hloc; [|by left]. cbn [negb].
  destruct (extract_date _ _ _ _) as [dp path].
  destruct (screenshot_ok v) eqn:Hshot; [|by left]. cbn [negb].
  destruct (drive_file_id v) as [id|] eqn:Hid; [|by left].
  right. eexists. split; [reflexivity|]. split.
  - unfold from_view. rewrite Hid. by split_and!.
  - apply or_unknown_nonempty.
Qed.

Lemma process_orders_new_rows cfg i views st :
  ∃ vs new,
    vs `sublist_of` views
    ∧ order_data (process_orders cfg i views st) = order_data st ++ new
    ∧ Forall2 (λ v r, from_view v r ∧ date r ≠ "") vs new.
Proof.
  revert i st. induction views as [|v views IH]; intros i st.
  { exists [], []. by rewrite app_nil_r. }
  cbn [process_orders].
  destruct (buttons_found v <=? i).
  { exists [], []. rewrite app_nil_r. split_and!; [apply sublist_nil_l|done..]. }
  destruct (click_ok v); cbn [negb];
    [|exists [], []; rewrite app_nil_r; split_and!; [apply sublist_nil_l|done..]].
  assert (Hstep : ∃ vs new,
            vs `sublist_of` [v]
            ∧ order_data (process_detail cfg i v st) = order_data st ++ new
            ∧ Forall2 (λ v r, from_view v r ∧ date r ≠ "") vs new).
  { destruct (process_detail_new_row cfg i v st) as [Hsame|(r & Hnew & Hr)].
    - exists [], []. rewrite app_nil_r. split_and!; [apply sublist_nil_l|done..].
    - exists [v], [r]. split_and!; [done..|]. constructor; [exact Hr|constructor]. }
  destruct Hstep as (vs1 & new1 & Hsub1 & Hnew1 & Hall1).
  destruct (reload_ok v); cbn [negb].
  - destruct (IH (S i) (process_detail cfg i v st)) as (vs2 & new2 & Hsub2 & Hnew2 & Hall2).
    exists (vs1 ++ vs2), (new1 ++ new2). split_and!.
    + change (v :: views) with ([v] ++ views). by apply sublist_app.
    + by rewrite Hnew2, Hnew1, app_assoc.
    + by apply Forall2_app.
  - exists vs1, new1. split_and!; [|done..].
    etrans; [exact Hsub1|]. apply sublist_skip, sublist_nil_l.
Qed.

(** X6: the rows that the loop collects stem, in their order, from views of
    the run, one row at most for a view: such a row carries the link of
    the file Drive returned for that view and the identifier and amount
    read from it.  No field of a row is blank. *)
Theorem rows_come_from_views cfg views :
  let rows := order_data (main_loop cfg views) in
  (∃ vs, vs `sublist_of` views ∧ Forall2 from_view vs rows)
  ∧ Forall (λ r, order_id r ≠ "" ∧ date r ≠ "" ∧ drive_link r ≠ "" ∧ amount r ≠ "")
      rows.
Proof.
  intros rows. subst rows. unfold main_loop.
  destruct (process_orders_new_rows cfg 0 views initial_locals)
    as (vs & new & Hsub & -> & Hall).
  cbn [order_data initial_locals app]. split.
  - exists vs. split; [done|]. eapply Forall2_impl; [exact Hall|]. by intros v r [Hr _].
  - clear Hsub. induction Hall as [|v r vs new [Hr Hd] _ IH]; constructor; [|done].
    destruct Hr as (_ & _ & Hlink & -> & ->).
    split_and!; [apply or_unknown_nonempty|done| |apply or_unknown_nonempty].
    destruct (drive_file_id v); simplify_eq/=. by rewrite <- Hlink.
Qed.

Lemma captures_app a b : captures (a ++ b) = captures a ++ captures b.
Proof. unfold captures. apply bind_app. Qed.

Lemma process_detail_capture cfg i v st :
  ∃ paths,
    log (process_detail cfg i v st) = log st ++ captures paths
    ∧ length (order_data (process_detail cfg i v st))
      ≤ length (order_data st) + length paths
    ∧ length paths ≤ length (filter (λ v, location_found v = true) [v]).
Proof.
  unfold process_detail.
  destruct (location_found v) eqn:Hloc; cbn [negb].
  2: { exists []. rewrite app_nil_r. simpl. split_and!; first [done|lia]. }
  rewrite filter_cons, filter_nil, decide_True by done.
  destruct (extract_date _ _ _ _) as [dp path].
  destruct (screenshot_ok v); cbn [negb].
  2: { exists []. rewrite app_nil_r. simpl. split_and!; first [done|lia]. }
  exists [path]. destruct (truthy _); simpl; rewrite ?length_app; simpl; split_and!; first [done|lia].
Qed.

Lemma process_orders_captures cfg i views st :
  ∃ paths,
    log (process_orders cfg i views st) = log st ++ captures paths
    ∧ length (order_data (process_orders cfg i views st))
      ≤ length (order_data st) + length paths
    ∧ length paths ≤ length (filter (λ v, location_found v = true) views).
Proof.
  revert i st. induction views as [|v views IH]; intros i st.
  { exists []. rewrite app_nil_r. simpl. split_and!; first [done|lia]. }
  cbn [process_orders].
  destruct (buttons_found v <=? i).
  { exists []. rewrite app_nil_r. simpl. split_and!; first [done|lia]. }
  destruct (click_ok v); cbn [negb].
  2: { exists []. rewrite app_nil_r. simpl. split_and!; first [done|lia]. }
  destruct (process_detail_capture cfg i v st) as (p1 & Hlog1 & Hrows1 & Hlen1).
  change (v :: views) with ([v] ++ views). rewrite filter_app, length_app.
  destruct (reload_ok v); cbn [negb].
  - destruct (IH (S i) (process_detail cfg i v st)) as (p2 & Hlog2 & Hrows2 & Hlen2).
    exists (p1 ++ p2). rewrite captures_app, length_app, Hlog2, Hlog1, app_assoc.
    split_and!; first [done|lia].
  - exists p1. split_and!; first [done|lia].
Qed.

(** X7: the captures of a run: every screenshot that is written is uploaded
    next, once, under the base name of its path, and nothing else is
    uploaded.  There are at least as many captures as rows, and at most
    as many as views of orders delivered to the location. *)
Theorem every_capture_is_uploaded_once cfg views :
  ∃ paths,
    log (main_loop cfg views) = captures paths
    ∧ length (order_data (main_loop cfg views)) ≤ length paths
    ∧ length paths ≤ length (filter (λ v, location_found v = true) views).
Proof.
  destruct (process_orders_captures cfg 0 views initial_locals)
    as (paths & Hlog & Hrows & Hlen).
  exists paths. split_and!; [exact Hlog|exact Hrows|exact Hlen].
Qed.

(** X8: the date of the row of a view: when the text of the date container
    is read and has a first line, the date is taken from that line, and
    is "Unknown" when nothing is left of it; when the container cannot
    be read or its text is empty, the date is the one bound last by an
    earlier order, and "Unknown" when there is none. *)
Theorem row_date_source cfg i v st link :
  location_found v = true → screenshot_ok v = true →
  upload_to_drive (drive_file_id v) = Some link →
  ∃ row,
    order_data (process_detail cfg i v st) = order_data st ++ [row]
    ∧ drive_link row = link
    ∧ date row =
        match date_text v ≫= splitlines_first with
        | Some line => or_unknown (Some (strip (re_sub_delivered_on line)))
        | None => or_unknown (date_part st)
        end.
Proof.
  intros Hloc Hshot Hup.
  rewrite (process_detail_row cfg i v st link) by done.
  eexists. split; [reflexivity|]. split; [reflexivity|]. cbn [date].
  unfold extract_date. destruct (date_text v) as [text|]; [|done].
  cbn [mbind option_bind]. destruct (splitlines_first text) as [line|]; [|done].
  case_bool_decide; [done|]. by destruct (_ || _).
Qed.

Lemma row_date_source_example :
  ∃ row,
    order_data (process_detail default_config 1 order_2
                  (process_detail default_config 0 order_1 initial_locals))
    = order_data (process_detail default_config 0 order_1 initial_locals) ++ [row]
    ∧ date row = "Mon, 5 Jan 2024, 10:30 AM".
Proof.
  destruct (row_date_source default_config 1 order_2
              (process_detail default_config 0 order_1 initial_locals)
              "https://drive.google.com/file/d/f2/view?usp=sharing"
              eq_refl eq_refl eq_refl) as (row & Hrows & _ & Hdate).
  exists row. split; [exact Hrows|]. rewrite Hdate. reflexivity.
Defined.

End ScraperFacts.

(** * Properties of the ledger synchronizer *)
Module GSheetFacts.
Import GSheet GSheetSpec.

(** ** What a computation leaves unchanged *)
Lemma keeps_ret {A B} (f : state → B) (a : A) : keeps f (mret a).
Proof. by intros st. Qed.

Lemma keeps_raise {A B} (f : state → B) e : keeps f (@raise A e).
Proof. by intros st. Qed.

Lemma keeps_lift {A B} (f : state → B) (r : exn + A) : keeps f (lift r).
Proof. by intros st. Qed.

Lemma keeps_bind {A B C} (f : state → B) (m : M A) (k : A → M C) :
  keeps f m → (∀ a, keeps f (k a)) → keeps f (m ≫= k).
Proof.
  intros Hm Hk st. unfold mbind, M_bind.
  specialize (Hm st). destruct (m st) as [[e|a] st1]; simpl in *; [done|].
  by rewrite Hk.
Qed.

Lemma keeps_try {A B} (f : state → B) (m : M A) handler :
  keeps f m → (∀ e h, handler e = Some h → keeps f h) →
  keeps f (try_except m handler).
Proof.
  intros Hm Hh st. unfold try_except.
  specialize (Hm st). destruct (m st) as [[e|a] st1]; simpl in *; [|done].
  destruct (handler e) as [h|] eqn:He; [|done].
  by rewrite (Hh e h He).
Qed.

Lemma keeps_read {A B} (f : state → B) (k : state → M A) :
  (∀ s, keeps f (k s)) → keeps f (get_state ≫= k).
Proof. intros Hk st. unfold mbind, M_bind, get_state. apply Hk. Qed.

Lemma keeps_modify {B} (f : state → B) g :
  (∀ st, f (g st) = f st) → keeps f (modify g).
Proof. intros Hg st. apply Hg. Qed.

Lemma keeps_for_each {A B} (f : state → B) (l : list A) body :
  (∀ x, keeps f (body x)) → keeps f (for_each l body).
Proof.
  intros Hb. induction l as [|x l IH]; [apply keeps_ret|].
  apply keeps_bind; [apply Hb | by intros _].
Qed.

(** The frames are touched by [fillna_inplace] alone. *)
Lemma remote_keeps_frames c : keeps frames (remote c).
Proof. intros st. unfold remote. by destruct (plan _) as [|[?|] ?]. Qed.

Lemma update_cells_keeps_frames u g w : keeps frames (update_cells u g w).
Proof.
  apply keeps_read; intros s. destruct (find_worksheet g w s).
  - by apply keeps_modify.
  - apply keeps_raise.
Qed.

Lemma add_worksheet_keeps_frames g w r c : keeps frames (add_worksheet g w r c).
Proof.
  apply keeps_bind; [apply remote_keeps_frames | intros _].
  apply keeps_read; intros s. destruct (find_worksheet g w s).
  - apply keeps_raise.
  - by apply keeps_modify.
Qed.

Lemma sheet_url_keeps_frames g : keeps frames (sheet_url g).
Proof.
  apply keeps_read; intros s.
  destruct (spreadsheets s !! g); [apply keeps_ret | apply keeps_raise].
Qed.

Lemma write_chunks_keeps_frames g w cd : keeps frames (write_chunks g w cd).
Proof.
  apply keeps_for_each; intros k. cbv beta zeta.
  case_bool_decide; [apply keeps_ret|].
  apply keeps_bind; [apply remote_keeps_frames | intros _].
  apply update_cells_keeps_frames.
Qed.

Lemma after_fillna_keeps_frames df g w ue su :
  keeps frames
    (authorize;;
     try_except (client_open g)
       (λ e, match e with
             | SpreadsheetNotFound => Some (client_create g;; sheet_share g)
             | _ => None
             end);;
     link ← sheet_url g;
     record_sheet_url su g link;;
     df0 ← read_frame df;
     let '(initial_df_rows, initial_df_cols) := shape df0 in
     final ← try_except
       (sheet_worksheet g w;;
        if negb ue then
          del_worksheet g w;;
          recreate_worksheet g w (initial_df_rows + 10) (initial_df_cols + 1);;
          mret df0
        else
          existing_data ← worksheet_get_all_values g w;
          merged ← lift (merge_existing existing_data df0);
          worksheet_clear g w;;
          mret merged)
       (λ e, match e with
             | WorksheetNotFound =>
                 Some (add_worksheet g w (initial_df_rows + 10) (initial_df_cols + 1);;
                       mret df0)
             | _ => None
             end);
     let columns_data := columns_data_of (where_notnull_none final) in
     write_chunks g w columns_data;;
     sheet_url g).
Proof.
  apply keeps_bind; [apply remote_keeps_frames | intros _].
  apply keeps_bind.
  { apply keeps_try.
    - apply keeps_bind; [apply remote_keeps_frames | intros _].
      apply keeps_read; intros s.
      destruct (spreadsheets s !! g); [apply keeps_ret | apply keeps_raise].
    - intros e h He. destruct e; simplify_eq.
      apply keeps_bind; [|intros _; apply remote_keeps_frames].
      apply keeps_bind; [apply remote_keeps_frames | intros _].
      by apply keeps_modify. }
  intros _. apply keeps_bind; [apply sheet_url_keeps_frames | intros link].
  apply keeps_bind.
  { destruct su as [r|]; [|apply keeps_ret].
    apply keeps_read; intros s. destruct (dicts s !! r) as [d|]; [|apply keeps_raise].
    destruct (d !! g); [apply keeps_ret | by apply keeps_modify]. }
  intros _. apply keeps_bind.
  { apply keeps_read; intros s.
    destruct (frames s !! df); [apply keeps_ret | apply keeps_raise]. }
  intros df0. destruct (shape df0) as [rows cols].
  apply keeps_bind; [|intros final; apply keeps_bind;
                       [apply write_chunks_keeps_frames
                       |intros _; apply sheet_url_keeps_frames]].
  apply keeps_try.
  - apply keeps_bind.
    { apply keeps_bind; [apply remote_keeps_frames | intros _].
      apply keeps_read; intros s.
      destruct (find_worksheet g w s); [apply keeps_ret | apply keeps_raise]. }
    intros _. destruct ue; simpl.
    + apply keeps_bind.
      { apply keeps_bind; [apply remote_keeps_frames | intros _].
        apply keeps_read; intros s.
        destruct (find_worksheet g w s); [apply keeps_ret | apply keeps_raise]. }
      intros existing. apply keeps_bind; [apply keeps_lift | intros merged].
      apply keeps_bind; [|intros _; apply keeps_ret].
      apply keeps_bind; [apply remote_keeps_frames | intros _].
      apply update_cells_keeps_frames.
    + apply keeps_bind.
      { apply keeps_bind; [apply remote_keeps_frames | intros _].
        by apply keeps_modify. }
      intros _. apply keeps_bind; [|intros _; apply keeps_ret].
      apply keeps_try; [apply add_worksheet_keeps_frames|].
      intros e h He. destruct e; simplify_eq.
      case_match; simplify_eq.
      apply keeps_bind; [by apply keeps_modify | intros _].
      apply add_worksheet_keeps_frames.
  - intros e h He. destruct e; simplify_eq.
    apply keeps_bind; [apply add_worksheet_keeps_frames | intros _; apply keeps_ret].
Qed.

Lemma fillna_notnull fill d :
  Forall (Forall (λ c, isnull c = false)) (values (fillna fill d)).
Proof.
  unfold fillna, map_cells; simpl.
  apply Forall_fmap, Forall_true; intros row.
  apply Forall_fmap, Forall_true; intros c. by destruct c.
Qed.

(** ** Running a call step by step *)
Ltac unfold_ops :=
  unfold push_df_to_gsheet, recreate_worksheet, fillna_inplace, read_frame,
    record_sheet_url, authorize, client_open, client_create, sheet_share,
    sheet_url, sheet_worksheet, del_worksheet, add_worksheet,
    worksheet_get_all_values, worksheet_clear, worksheet_batch_update,
    update_cells, sleep, remote, try_except, lift, raise, get_state, modify,
    set_worksheet, set_spreadsheets, set_frames, set_dicts, set_plan, add_call,
    find_worksheet, mbind, M_bind, mret, M_ret.

Ltac exec_step :=
  first
    [ progress simpl
    | match goal with
      | H : ?l = Some _ |- context [?l] => rewrite H
      | H : ?l = None |- context [?l] => rewrite H
      end
    | rewrite lookup_insert_eq
    | rewrite lookup_alter_eq
    | rewrite lookup_partial_alter_eq ].

Ltac exec := unfold_ops; repeat exec_step.

Arguments write_chunks : simpl never.

(** C10: the first thing [push_df_to_gsheet] does is to fill the missing
    cells of the caller's frame in place.  However the call ends, the
    object holds the filled frame, in which no cell is missing, and the
    other frames are as they were; this is so already when the first
    remote call fails. *)
Theorem fillna_mutates_caller_frame st df d g w update_existing sheet_urls :
  frames st !! df = Some d →
  let run := push_df_to_gsheet df g w update_existing sheet_urls st in
  frames run.2 = <[df := fillna "" d]> (frames st)
  ∧ columns (fillna "" d) = columns d
  ∧ Forall (Forall (λ c, isnull c = false)) (values (fillna "" d))
  ∧ (∀ f rest, plan st = Some f :: rest →
       run.1 = inl (exn_of_fault f) ∧ calls run.2 = calls st ++ [Authorize]).
Proof.
  intros Hdf run. split_and!.
  - subst run. unfold push_df_to_gsheet.
    unfold mbind at 1. unfold M_bind at 1.
    unfold fillna_inplace at 1. unfold mbind at 1. unfold M_bind at 1.
    unfold get_state at 1. rewrite Hdf. unfold modify at 1.
    by rewrite after_fillna_keeps_frames.
  - reflexivity.
  - apply fillna_notnull.
  - intros f rest Hplan. subst run.
    destruct st as [fr di sp nu pl ca]; simpl in *; subst pl.
    unfold_ops. simpl. rewrite Hdf. by simpl.
Qed.

Lemma find_worksheet_eq g w st :
  find_worksheet g w st = spreadsheets st !! g ≫= λ ss, worksheets ss !! w.
Proof. reflexivity. Qed.

Lemma find_set_worksheet g w o st :
  is_Some (spreadsheets st !! g) →
  find_worksheet g w (set_worksheet g w o st) = o.
Proof.
  intros [ss Hss]. unfold find_worksheet, set_worksheet, set_spreadsheets. simpl.
  rewrite lookup_alter_eq, Hss. simpl. by rewrite lookup_partial_alter_eq.
Qed.

Lemma find_worksheet_is_Some g w st ws :
  find_worksheet g w st = Some ws → is_Some (spreadsheets st !! g).
Proof. unfold find_worksheet. destruct (spreadsheets st !! g); [eauto|done]. Qed.

Lemma remote_keeps_sheets c : keeps spreadsheets (remote c).
Proof. intros st. unfold remote. by destruct (plan _) as [|[?|] ?]. Qed.

Lemma remote_keeps_size g w c : keeps (worksheet_size g w) (remote c).
Proof.
  intros st. unfold worksheet_size, find_worksheet. by rewrite remote_keeps_sheets.
Qed.

Lemma update_cells_keeps_size g w u : keeps (worksheet_size g w) (update_cells u g w).
Proof.
  intros st. unfold update_cells, mbind, M_bind, get_state, modify, raise.
  destruct (find_worksheet g w st) as [ws|] eqn:Hws; [|done]. simpl.
  unfold worksheet_size.
  rewrite find_set_worksheet by (by eapply find_worksheet_is_Some).
  by rewrite Hws.
Qed.

Lemma write_chunks_keeps_size g w cd : keeps (worksheet_size g w) (write_chunks g w cd).
Proof.
  apply keeps_for_each; intros k. cbv beta zeta.
  case_bool_decide; [apply keeps_ret|].
  apply keeps_bind; [apply remote_keeps_size | intros _].
  apply update_cells_keeps_size.
Qed.

(** The write phase makes no call but [batch_update]. *)
Lemma write_chunks_calls g w cd st :
  ∃ more, calls (write_chunks g w cd st).2 = calls st ++ more
          ∧ Forall is_batch_update more.
Proof.
  unfold write_chunks. generalize (seq 0 (num_chunks (length cd))) as l.
  intros l. revert st. induction l as [|k l IH]; intros st.
  - exists []. by rewrite app_nil_r.
  - cbn [for_each]. unfold mbind at 1. unfold M_bind at 1.
    case_bool_decide as Hreqs.
    + unfold mret at 1, M_ret at 1. apply IH.
    + destruct (worksheet_batch_update _ _ _ st) as [[e|[]] st1] eqn:Hrun.
      * exists [BatchUpdate g w (requests_of_chunk_index cd k)].
        split; [|by repeat constructor].
        revert Hrun. unfold_ops. simpl.
        destruct (plan st) as [|[f|] rest]; simpl;
          repeat case_match; intros; by simplify_eq.
      * destruct (IH st1) as (more & Hmore & Hall).
        exists (BatchUpdate g w (requests_of_chunk_index cd k) :: more).
        split; [|by constructor].
        rewrite Hmore. revert Hrun. unfold_ops. simpl.
        destruct (plan st) as [|[f|] rest]; simpl;
          repeat case_match; intros; simplify_eq; simpl;
          by rewrite <- app_assoc.
Qed.

Ltac finish_writes Hlen :=
  match goal with
  | |- context [write_chunks ?g ?w ?cd ?s] =>
      destruct (write_chunks_calls g w cd s) as (more & Hmore & Hall);
      pose proof (write_chunks_keeps_size g w cd s) as Hsize;
      destruct (write_chunks g w cd s) as [[e|[]] st2]; simpl in *;
      [|destruct (spreadsheets st2 !! g); simpl];
      exists more; rewrite Hmore, Hsize, Hlen;
      (split_and!; [by rewrite <- !app_assoc | done |]);
      unfold worksheet_size, find_worksheet; by repeat exec_step
  end.

(** C6: in replace mode, an existing worksheet is deleted and created
    again with [len(df) + 10] rows and one column more than the frame.
    A creation that fails with status 409 is followed by a pause of 5
    seconds and one more attempt, whose failure is raised to the
    caller; a creation that fails otherwise is raised at once, with no
    pause and no second attempt. *)
Theorem replace_mode_recreates st df d g w ss ws sheet_urls :
  frames st !! df = Some d →
  spreadsheets st !! g = Some ss →
  worksheets ss !! w = Some ws →
  urls_ok sheet_urls st →
  let rows := len d + 10 in
  let cols := length (columns d) + 1 in
  let run := push_df_to_gsheet df g w false sheet_urls st in
  let before := calls st ++ [Authorize; ClientOpen g; GetWorksheet g w;
                             DelWorksheet g w] in
  let up_to_delete := [None; None; None; None] in
  (∀ rest, plan st = up_to_delete ++ None :: rest →
     ∃ more, calls run.2 = before ++ [AddWorksheet g w rows cols] ++ more
             ∧ Forall is_batch_update more
             ∧ worksheet_size g w run.2 = Some (rows, cols))
  ∧ (∀ f rest, plan st = up_to_delete ++ Some f :: rest →
       f ≠ HttpStatus 409 →
       run.1 = inl (exn_of_fault f)
       ∧ calls run.2 = before ++ [AddWorksheet g w rows cols])
  ∧ (∀ f rest,
       plan st = up_to_delete ++ Some (HttpStatus 409) :: Some f :: rest →
       run.1 = inl (exn_of_fault f)
       ∧ calls run.2 = before ++ [AddWorksheet g w rows cols; Sleep 5;
                                  AddWorksheet g w rows cols])
  ∧ (∀ rest,
       plan st = up_to_delete ++ Some (HttpStatus 409) :: None :: rest →
       ∃ more, calls run.2 = before ++ [AddWorksheet g w rows cols; Sleep 5;
                                        AddWorksheet g w rows cols] ++ more
               ∧ Forall is_batch_update more
               ∧ worksheet_size g w run.2 = Some (rows, cols)).
Proof.
  intros Hdf Hss Hws Hsu rows cols run before up_to_delete.
  destruct st as [fr di sp nu pl ca]; simpl in *.
  assert (Hlen : len (fillna "" d) = len d)
    by (unfold len, fillna, map_cells; simpl; by rewrite length_fmap).
  assert (Hsu' : sheet_urls = None
                 ∨ ∃ r dd, sheet_urls = Some r ∧ di !! r = Some dd).
  { destruct sheet_urls as [r|]; [right|by left].
    destruct Hsu as [dd Hdd]. by exists r, dd. }
  clear Hsu. subst run before rows cols.
  split_and!.
  - intros rest ->.
    destruct Hsu' as [->|(r & dd & -> & Hdd)]; [|destruct (dd !! g) eqn:Hg];
      exec; finish_writes Hlen.
  - intros f rest -> Hf.
    destruct Hsu' as [->|(r & dd & -> & Hdd)]; [|destruct (dd !! g) eqn:Hg];
      exec.
    all: destruct f as [code|what]; simpl;
      [destruct (code =? 409) eqn:Hcode;
         [apply Nat.eqb_eq in Hcode; by subst|]|].
    all: rewrite Hlen; split; [done|]; by rewrite <- !app_assoc.
  - intros f rest ->.
    destruct Hsu' as [->|(r & dd & -> & Hdd)]; [|destruct (dd !! g) eqn:Hg];
      exec.
    all: destruct f; simpl; rewrite Hlen; (split; [done|]);
      by rewrite <- !app_assoc.
  - intros rest ->.
    destruct Hsu' as [->|(r & dd & -> & Hdd)]; [|destruct (dd !! g) eqn:Hg];
      exec; finish_writes Hlen.
Qed.

(** ** The chunks *)
Lemma elem_of_chunk_requests first chunk rq :
  rq ∈ chunk_requests first chunk ↔
  ∃ k row_data j v,
    chunk !! k = Some row_data ∧ row_data !! j = Some v
    ∧ rq = {| range_row := first + k; range_col := j + 1; value := v |}.
Proof.
  unfold chunk_requests. rewrite list_elem_of_join. split.
  - intros (reqs & Hrq & Hreqs).
    apply elem_of_lookup_imap in Hreqs as (k & row_data & -> & Hk).
    apply elem_of_lookup_imap in Hrq as (j & v & -> & Hj).
    by exists k, row_data, j, v.
  - intros (k & row_data & j & v & Hk & Hj & ->).
    exists (imap (λ j v, Build_request (first + k) (j + 1) v) row_data). split.
    + apply elem_of_lookup_imap. by exists j, v.
    + apply elem_of_lookup_imap. by exists k, row_data.
Qed.

Lemma chunk_requests_app first l1 l2 :
  chunk_requests first (l1 ++ l2) =
  chunk_requests first l1 ++ chunk_requests (first + length l1) l2.
Proof.
  unfold chunk_requests. rewrite imap_app, join_app. f_equal. f_equal.
  apply imap_ext; intros k row_data _. apply imap_ext; intros j v _. simpl.
  f_equal; lia.
Qed.

Lemma slice_as_take {A} (l : list A) a :
  slice a ((a + batch_size) `min` length l) l = take batch_size (drop a l).
Proof.
  unfold slice. destruct (decide (a + batch_size ≤ length l)).
  - f_equal. lia.
  - rewrite !take_ge; [done| |]; rewrite length_drop; lia.
Qed.

Lemma requests_upto cd n :
  mjoin (requests_of_chunk_index cd <$> seq 0 n) =
  chunk_requests start_row (take (n * batch_size) cd).
Proof.
  induction n as [|n IH]; [done|].
  rewrite seq_S, fmap_app, join_app, IH.
  change (mjoin (requests_of_chunk_index cd <$> [0 + n]))
    with (requests_of_chunk_index cd n ++ []).
  rewrite app_nil_r, Nat.mul_succ_l.
  unfold requests_of_chunk_index. rewrite slice_as_take.
  rewrite <- take_take_drop, chunk_requests_app.
  destruct (decide (n * batch_size ≤ length cd)).
  - by rewrite length_take_le.
  - rewrite (drop_ge cd) by lia. by rewrite take_nil.
Qed.

Lemma num_chunks_enough total : total ≤ num_chunks total * batch_size.
Proof.
  unfold num_chunks.
  pose proof (Nat.div_mod_eq (total + (batch_size - 1)) batch_size) as Hdiv.
  pose proof (Nat.mod_upper_bound (total + (batch_size - 1)) batch_size) as Hmod.
  unfold batch_size in *. lia.
Qed.

Lemma join_filter_nonempty {A} (ls : list (list A)) :
  mjoin (filter (λ l, l ≠ []) ls) = mjoin ls.
Proof.
  induction ls as [|l ls IH]; [done|].
  rewrite filter_cons. destruct (decide (l ≠ [])) as [|Hl]; simpl.
  - by rewrite IH.
  - apply dec_stable in Hl. by rewrite Hl, IH.
Qed.

(** The batches, one after the other, hold the requests of the whole
    table, rows numbered from 1. *)
Lemma join_batches cd : mjoin (batches cd) = chunk_requests start_row cd.
Proof.
  unfold batches. rewrite join_filter_nonempty, requests_upto.
  by rewrite take_ge by apply num_chunks_enough.
Qed.

Lemma apply_batches ws_cells (bs : list (list request)) :
  foldl apply_batch ws_cells bs = apply_batch ws_cells (mjoin bs).
Proof.
  revert ws_cells. induction bs as [|b bs IH]; intros ws_cells; [done|].
  simpl. unfold apply_batch at 3. rewrite foldl_app. apply IH.
Qed.

(** The rows of the chunk with index [k] lie in the range that its
    offset gives, at most [batch_size] of them. *)
Lemma chunk_rows_in_range cd k rq :
  rq ∈ requests_of_chunk_index cd k →
  k * batch_size + 1 ≤ range_row rq ≤ ((k + 1) * batch_size) `min` length cd.
Proof.
  unfold requests_of_chunk_index. rewrite slice_as_take.
  intros (i & row_data & j & v & Hi & _ & ->)%elem_of_chunk_requests.
  apply lookup_take_Some in Hi as [Hi Hlt].
  rewrite lookup_drop in Hi. apply lookup_lt_Some in Hi.
  unfold start_row. simpl. lia.
Qed.

Lemma chunk_rows_covered cd k r :
  Forall (λ row_data, row_data ≠ []) cd →
  k * batch_size + 1 ≤ r ≤ ((k + 1) * batch_size) `min` length cd →
  ∃ rq, rq ∈ requests_of_chunk_index cd k ∧ range_row rq = r.
Proof.
  intros Hrows Hr.
  destruct (lookup_lt_is_Some_2 cd (r - 1)) as [row_data Hrow]; [lia|].
  destruct row_data as [|v row_data].
  { by eapply Forall_lookup_1 in Hrows; [|done]. }
  exists {| range_row := r; range_col := 1; value := v |}. split; [|done].
  unfold requests_of_chunk_index. rewrite slice_as_take.
  apply elem_of_chunk_requests.
  exists (r - 1 - k * batch_size), (v :: row_data), 0, v. split_and!.
  - apply lookup_take_Some. split; [|lia].
    rewrite lookup_drop, <- Hrow. f_equal. lia.
  - done.
  - unfold start_row. f_equal. lia.
Qed.

Lemma chunk_covers cd k :
  Forall (λ row_data, row_data ≠ []) cd →
  covers (requests_of_chunk_index cd k)
    (k * batch_size + 1) (((k + 1) * batch_size) `min` length cd).
Proof.
  intros Hrows. split.
  - intros rq. apply chunk_rows_in_range.
  - intros r. by apply chunk_rows_covered.
Qed.

(** ** A run without faults *)
Lemma batch_update_ok g w reqs st ss ws :
  plan st = [] → spreadsheets st !! g = Some ss → worksheets ss !! w = Some ws →
  ∃ st1 ss1,
    worksheet_batch_update g w reqs st = (inr (), st1)
    ∧ plan st1 = [] ∧ frames st1 = frames st ∧ dicts st1 = dicts st
    ∧ calls st1 = calls st ++ [BatchUpdate g w reqs]
    ∧ spreadsheets st1 !! g = Some ss1 ∧ url ss1 = url ss
    ∧ worksheets ss1 !! w =
        Some {| row_count := row_count ws; col_count := col_count ws;
                cells := apply_batch (cells ws) reqs |}.
Proof.
  intros Hplan Hss Hws. destruct st as [fr di sp nu pl ca]; simpl in *; subst pl.
  eexists _, {| url := url ss;
                worksheets := partial_alter (λ _, Some _) w (worksheets ss) |}.
  exec. split_and!; try reflexivity.
  by repeat exec_step.
Qed.

Lemma for_each_chunks_ok g w cd l st ss ws :
  plan st = [] → spreadsheets st !! g = Some ss → worksheets ss !! w = Some ws →
  let sent := filter (λ reqs, reqs ≠ []) (requests_of_chunk_index cd <$> l) in
  ∃ st1 ss1,
    for_each l (λ chunk_index,
      if bool_decide (requests_of_chunk_index cd chunk_index = []) then mret ()
      else worksheet_batch_update g w (requests_of_chunk_index cd chunk_index)) st
    = (inr (), st1)
    ∧ plan st1 = [] ∧ frames st1 = frames st ∧ dicts st1 = dicts st
    ∧ calls st1 = calls st ++ (BatchUpdate g w <$> sent)
    ∧ spreadsheets st1 !! g = Some ss1 ∧ url ss1 = url ss
    ∧ worksheets ss1 !! w =
        Some {| row_count := row_count ws; col_count := col_count ws;
                cells := foldl apply_batch (cells ws) sent |}.
Proof.
  revert st ss ws. induction l as [|k l IH]; intros st ss ws Hplan Hss Hws sent.
  - exists st, ss. subst sent. simpl. rewrite app_nil_r.
    split_and!; try done. by destruct ws.
  - subst sent. rewrite fmap_cons, filter_cons. cbn [for_each].
    unfold mbind at 1. unfold M_bind at 1.
    case_bool_decide as Hreqs.
    + rewrite decide_False by (by intros ?).
      unfold mret at 1. unfold M_ret at 1. by apply IH.
    + rewrite decide_True by done.
      destruct (batch_update_ok g w (requests_of_chunk_index cd k) st ss ws)
        as (st1 & ss1 & -> & Hplan1 & Hfr1 & Hdi1 & Hca1 & Hss1 & Hurl1 & Hws1);
        [done..|].
      destruct (IH st1 ss1 _ Hplan1 Hss1 Hws1)
        as (st2 & ss2 & -> & Hplan2 & Hfr2 & Hdi2 & Hca2 & Hss2 & Hurl2 & Hws2).
      exists st2, ss2. split_and!; try congruence; [|exact Hws2].
      rewrite Hca2, Hca1, fmap_cons. by rewrite <- app_assoc.
Qed.

Lemma write_chunks_ok g w cd st ss ws :
  plan st = [] → spreadsheets st !! g = Some ss → worksheets ss !! w = Some ws →
  ∃ st1 ss1,
    write_chunks g w cd st = (inr (), st1)
    ∧ plan st1 = [] ∧ frames st1 = frames st ∧ dicts st1 = dicts st
    ∧ calls st1 = calls st ++ (BatchUpdate g w <$> batches cd)
    ∧ spreadsheets st1 !! g = Some ss1 ∧ url ss1 = url ss
    ∧ worksheets ss1 !! w =
        Some {| row_count := row_count ws; col_count := col_count ws;
                cells := apply_batch (cells ws) (chunk_requests start_row cd) |}.
Proof.
  intros Hplan Hss Hws.
  destruct (for_each_chunks_ok g w cd (seq 0 (num_chunks (length cd))) st ss ws)
    as (st1 & ss1 & Hrun & ? & ? & ? & ? & ? & ? & Hws1); [done..|].
  exists st1, ss1. split_and!; try done.
  by rewrite Hws1, apply_batches, <- join_batches.
Qed.

(** C5: a table of 7001 rows, none of them without cells, is written by
    three calls of [batch_update], in this order, on the rows 1 to 3500,
    3501 to 7000 and 7001; and the requests of any chunk lie in the at
    most 3500 rows that its offset in the table gives, counted from 1. *)
Theorem three_batches_for_7001_rows g w (cd : list (list cell)) st ss ws :
  length cd = 7001 →
  Forall (λ row_data, row_data ≠ []) cd →
  plan st = [] → spreadsheets st !! g = Some ss → worksheets ss !! w = Some ws →
  (∃ b1 b2 b3,
     batches cd = [b1; b2; b3]
     ∧ covers b1 1 3500 ∧ covers b2 3501 7000 ∧ covers b3 7001 7001
     ∧ (write_chunks g w cd st).1 = inr ()
     ∧ calls (write_chunks g w cd st).2 =
         calls st ++ [BatchUpdate g w b1; BatchUpdate g w b2; BatchUpdate g w b3])
  ∧ (∀ (table : list (list cell)) chunk_index rq,
       rq ∈ requests_of_chunk_index table chunk_index →
       chunk_index * 3500 + 1 ≤ range_row rq
       ∧ range_row rq ≤ chunk_index * 3500 + 3500
       ∧ range_row rq ≤ length table).
Proof.
  intros Hlen Hrows Hplan Hss Hws. split.
  - exists (requests_of_chunk_index cd 0), (requests_of_chunk_index cd 1),
      (requests_of_chunk_index cd 2).
    pose proof (chunk_covers cd 0 Hrows) as H0.
    pose proof (chunk_covers cd 1 Hrows) as H1.
    pose proof (chunk_covers cd 2 Hrows) as H2.
    rewrite Hlen in H0, H1, H2.
    assert (Hb : batches cd = [requests_of_chunk_index cd 0;
                               requests_of_chunk_index cd 1;
                               requests_of_chunk_index cd 2]).
    { unfold batches. rewrite Hlen.
      change (num_chunks 7001) with 3. simpl.
      assert (Hne : ∀ k lo hi, lo ≤ hi → covers (requests_of_chunk_index cd k) lo hi →
                      requests_of_chunk_index cd k ≠ []).
      { intros k lo hi Hle [_ Hall] Hnil. destruct (Hall lo) as (rq & Hrq & _); [lia|].
        rewrite Hnil in Hrq. by apply elem_of_nil in Hrq. }
      rewrite !filter_cons, filter_nil.
      rewrite !decide_True; [done|..]; eapply Hne; try eassumption;
        unfold batch_size; simpl; lia. }
    destruct (write_chunks_ok g w cd st ss ws) as (st1 & ss1 & Hrun & _ & _ & _ & Hca & _);
      [done..|].
    rewrite Hrun, Hb in *. split_and!; done.
  - intros table k rq Hrq. apply chunk_rows_in_range in Hrq.
    unfold batch_size in Hrq. lia.
Qed.

(** ** Reading back what was written *)
Lemma apply_batch_snoc c reqs rq :
  apply_batch c (reqs ++ [rq]) = apply_request (apply_batch c reqs) rq.
Proof. unfold apply_batch. by rewrite foldl_app. Qed.

Lemma lookup_apply_batch reqs r k s :
  (∀ rq rq', rq ∈ reqs → rq' ∈ reqs →
     range_row rq = range_row rq' → range_col rq = range_col rq' → rq = rq') →
  Forall (λ rq, ∃ t, value rq = Text t) reqs →
  apply_batch ∅ reqs !! (r, k) = Some s ↔
  {| range_row := r; range_col := k; value := Text s |} ∈ reqs.
Proof.
  induction reqs as [|rq reqs IH] using rev_ind; intros Hfun Htext.
  - simpl. rewrite lookup_empty, elem_of_nil. naive_solver.
  - apply Forall_app in Htext as [Htext [[t Ht] _]%Forall_cons].
    rewrite apply_batch_snoc. unfold apply_request. rewrite Ht.
    rewrite elem_of_app, list_elem_of_singleton.
    destruct (decide ((range_row rq, range_col rq) = (r, k))) as [Heq|Hne].
    + rewrite Heq, lookup_insert_eq. injection Heq as <- <-. split.
      * intros [= <-]. right. destruct rq; simpl in *; by subst.
      * intros [Hin|Heq]; [|rewrite <- Heq in Ht; simpl in Ht; by simplify_eq].
        assert ({| range_row := range_row rq; range_col := range_col rq;
                   value := Text s |} = rq) as Heq; [|rewrite <- Heq in Ht;
                                                     simpl in Ht; by simplify_eq].
        apply Hfun; [apply elem_of_app; by left|apply elem_of_app; right; by left|done..].
    + rewrite lookup_insert_ne by done.
      rewrite IH; [|intros ????; apply Hfun; apply elem_of_app; by left|done].
      split; [by left|]. intros [?|Heq]; [done|]. destruct Hne. by rewrite <- Heq.
Qed.

Lemma lookup_cells_of_table t r k s :
  cells_of_table t !! (r, k) = Some s ↔
  ∃ i j row, t !! i = Some row ∧ row !! j = Some s ∧ r = start_row + i ∧ k = j + 1.
Proof.
  unfold cells_of_table. rewrite lookup_apply_batch.
  - rewrite elem_of_chunk_requests. unfold map_cells. split.
    + intros (i & row & j & v & Hi & Hj & [= -> -> <-]).
      rewrite list_lookup_fmap in Hi.
      destruct (t !! i) as [row'|] eqn:Hrow; simplify_eq/=.
      rewrite list_lookup_fmap in Hj.
      destruct (row' !! j) as [s'|] eqn:Hs; simplify_eq/=.
      by exists i, j, row'.
    + intros (i & j & row & Hi & Hj & -> & ->).
      exists i, (Text <$> row), j, (Text s). split_and!; [| |done].
      * by rewrite list_lookup_fmap, Hi.
      * by rewrite list_lookup_fmap, Hj.
  - intros rq rq' (i & row & j & v & Hi & Hj & ->)%elem_of_chunk_requests
      (i' & row' & j' & v' & Hi' & Hj' & ->)%elem_of_chunk_requests; simpl.
    intros ? ?. assert (i = i') as <- by lia. assert (j = j') as <- by lia.
    by simplify_eq.
  - apply Forall_forall.
    intros rq (i & row & j & v & Hi & Hj & ->)%elem_of_chunk_requests; simpl.
    unfold map_cells in Hi. rewrite list_lookup_fmap in Hi.
    destruct (t !! i) as [row'|]; simplify_eq/=.
    rewrite list_lookup_fmap in Hj. destruct (row' !! j); simplify_eq/=. eauto.
Qed.

Lemma elem_of_used_addresses c r k :
  (r, k) ∈ used_addresses c ↔ ∃ s, c !! (r, k) = Some s ∧ s ≠ "".
Proof.
  unfold used_addresses. rewrite list_elem_of_fmap. split.
  - intros ([a s] & -> & [Hs Hin]%list_elem_of_filter).
    apply elem_of_map_to_list in Hin. destruct a. eauto.
  - intros (s & Hc & Hs). exists ((r, k), s). split; [done|].
    apply list_elem_of_filter. split; [done|]. by apply elem_of_map_to_list.
Qed.

Lemma max_list_le (ns : list nat) n : Forall (λ x, x ≤ n) ns → max_list ns ≤ n.
Proof. induction 1; simpl; lia. Qed.

Lemma max_list_is (ns : list nat) n :
  Forall (λ x, x ≤ n) ns → n ∈ ns → max_list ns = n.
Proof.
  intros Hle Hin. apply Nat.le_antisymm; [by apply max_list_le|].
  by apply max_list_elem_of_le.
Qed.

Lemma last_row_of_table t n :
  t ≠ [] → width n t → tight t →
  max_list (fst <$> used_addresses (cells_of_table t)) = length t.
Proof.
  intros Hne Hw [(row & Hlast & Hrow) _]. apply max_list_is.
  - apply Forall_forall. intros r ([r' k] & -> & Hin)%list_elem_of_fmap.
    apply elem_of_used_addresses in Hin as (s & Hs & _).
    apply lookup_cells_of_table in Hs as (i & j & row' & Hi & _ & -> & _).
    apply lookup_lt_Some in Hi. unfold start_row. simpl. lia.
  - apply Exists_exists in Hrow as (s & Hs & Hnz).
    apply list_elem_of_lookup in Hs as [j Hj].
    apply list_elem_of_fmap. exists (length t, j + 1). split; [done|].
    apply elem_of_used_addresses. exists s. split; [|done].
    apply lookup_cells_of_table. exists (pred (length t)), j, row.
    rewrite last_lookup in Hlast. split_and!; try done.
    destruct t; [done|]. unfold start_row. simpl. lia.
Qed.

Lemma last_col_of_table t n :
  width n t → tight t →
  max_list (snd <$> used_addresses (cells_of_table t)) = n.
Proof.
  intros Hw [_ Hcol]. apply max_list_is.
  - apply Forall_forall. intros k ([r k'] & -> & Hin)%list_elem_of_fmap.
    apply elem_of_used_addresses in Hin as (s & Hs & _).
    apply lookup_cells_of_table in Hs as (i & j & row' & Hi & Hj & _ & ->).
    eapply Forall_lookup_1 in Hw; [|done]. apply lookup_lt_Some in Hj.
    simpl. lia.
  - apply Exists_exists in Hcol as (row & Hrow & s & Hs & Hnz).
    apply list_elem_of_lookup in Hrow as [i Hi].
    pose proof (Forall_lookup_1 _ _ _ _ Hw Hi) as Hlen. simpl in Hlen.
    rewrite last_lookup in Hs.
    apply list_elem_of_fmap. exists (start_row + i, n). split; [done|].
    apply elem_of_used_addresses. exists s. split; [|done].
    apply lookup_cells_of_table. exists i, (pred (length row)), row.
    split_and!; try done. apply lookup_lt_Some in Hs. lia.
Qed.

(** Reading a worksheet that was cleared and then written returns the
    table that was written. *)
Lemma get_all_values_cells_of_table t n :
  width n t → tight t → get_all_values (cells_of_table t) = t.
Proof.
  intros Hw Ht. unfold get_all_values.
  assert (t ≠ []) as Hne by (destruct Ht as [(row & Hlast & _) _]; by destruct t).
  rewrite (last_row_of_table t n), (last_col_of_table t n) by done.
  apply (list_eq_same_length _ _ (length t)); [done|by rewrite length_fmap, length_seq|].
  intros i row' row Hi Hrow' Hrow.
  rewrite list_lookup_fmap, lookup_seq_lt in Hrow' by done. simplify_eq/=.
  pose proof (Forall_lookup_1 _ _ _ _ Hw Hrow) as Hlen. simpl in Hlen.
  apply (list_eq_same_length _ _ (length row));
    [done|by rewrite length_fmap, length_seq|].
  intros j s' s Hj Hs' Hs.
  rewrite list_lookup_fmap, lookup_seq_lt in Hs' by lia. simplify_eq/=.
  unfold cell_text.
  assert (cells_of_table t !! (S i, S j) = Some s) as ->; [|done].
  apply lookup_cells_of_table. exists i, j, row. unfold start_row.
  split_and!; try done; lia.
Qed.

Lemma get_all_values_empty : get_all_values ∅ = [].
Proof. unfold get_all_values, used_addresses. by rewrite map_to_list_empty. Qed.

(** ** Filters *)
Lemma filter_ext_in {A} (P Q : A → Prop) `{!∀ x, Decision (P x)}
    `{!∀ x, Decision (Q x)} (l : list A) :
  (∀ x, x ∈ l → P x ↔ Q x) → filter P l = filter Q l.
Proof.
  induction l as [|x l IH]; intros Hiff; [done|].
  rewrite !filter_cons.
  assert (P x ↔ Q x) as Hx by (apply Hiff; left).
  rewrite IH by (intros y Hy; apply Hiff; by right).
  destruct (decide (P x)), (decide (Q x)); tauto.
Qed.

Lemma filter_all {A} (P : A → Prop) `{!∀ x, Decision (P x)} (l : list A) :
  Forall P l → filter P l = l.
Proof.
  induction 1 as [|x l Hx _ IH]; [done|].
  by rewrite filter_cons_True, IH.
Qed.

Lemma filter_none {A} (P : A → Prop) `{!∀ x, Decision (P x)} (l : list A) :
  Forall (λ x, ¬ P x) l → filter P l = [].
Proof.
  induction 1 as [|x l Hx _ IH]; [done|].
  by rewrite filter_cons_False.
Qed.

(** ** The merge *)
Lemma column_first name rest rows :
  column {| columns := name :: rest; values := rows |} name =
  inr ((λ row : list cell, default NaN (row !! 0)) <$> rows).
Proof.
  unfold column, column_index. simpl. by rewrite decide_True.
Qed.

Lemma frame_of_strings_width headers rows :
  width (length headers) rows →
  frame_of_strings headers rows =
  inr {| columns := headers; values := map_cells Text rows |}.
Proof.
  intros Hw. unfold frame_of_strings.
  assert (forallb (λ row : list string, length row =? length headers) rows = true)
    as ->; [|done].
  induction Hw as [|row rows Hrow _ IH]; [done|].
  simpl. by rewrite Hrow, Nat.eqb_refl.
Qed.

Lemma key_set_keys_of rows :
  key_set ((λ row : list cell, default NaN (row !! 0)) <$> rows) = keys_of rows.
Proof.
  unfold key_set, keys_of. f_equal. rewrite <- list_fmap_compose.
  by apply list_fmap_ext.
Qed.

Lemma boolean_index_filter cols rows (keys : gset string) :
  values (boolean_index {| columns := cols; values := rows |}
            (not_isin ((λ row : list cell, default NaN (row !! 0)) <$> rows) keys))
  = filter (λ row, row_key row ∉ keys) rows.
Proof.
  unfold boolean_index, not_isin. simpl.
  induction rows as [|row rows IH]; [done|].
  rewrite !fmap_cons. cbn [zip zip_with]. rewrite !filter_cons. simpl.
  fold (row_key row).
  destruct (decide (row_key row ∈ keys)) as [Hin|Hout].
  - rewrite (bool_decide_eq_true_2 _ Hin). simpl.
    destruct (decide (false = true)); [done|].
    by destruct (decide (row_key row ∉ keys)).
  - rewrite (bool_decide_eq_false_2 _ Hout). simpl.
    destruct (decide (true = true)); [|done].
    destruct (decide (row_key row ∉ keys)); [|done].
    simpl. f_equal. exact IH.
Qed.

Lemma filter_keys_inter rows (other : gset string) :
  filter (λ row, row_key row ∉ keys_of rows ∩ other) rows =
  filter (λ row, row_key row ∉ other) rows.
Proof.
  apply filter_ext_in. intros row Hrow.
  assert (row_key row ∈ keys_of rows) as Hkey.
  { unfold keys_of. apply elem_of_list_to_set, list_elem_of_fmap. eauto. }
  rewrite elem_of_intersection. tauto.
Qed.

Lemma filter_keys_none rows (other : gset string) :
  keys_of rows ∩ other = ∅ → filter (λ row, row_key row ∉ other) rows = rows.
Proof.
  intros Hdisj. apply filter_all, Forall_forall. intros row Hrow Hin.
  assert (row_key row ∈ keys_of rows) as Hkey.
  { unfold keys_of. apply elem_of_list_to_set, list_elem_of_fmap. eauto. }
  apply (not_elem_of_empty (C:=gset string) (row_key row)).
  rewrite <- Hdisj. by apply elem_of_intersection.
Qed.

Lemma filter_map_cells_text (keys : gset string) (rows : list (list string)) :
  filter (λ row, row_key row ∉ keys) (map_cells Text rows) =
  map_cells Text (filter (λ row, row_key (Text <$> row) ∉ keys) rows).
Proof.
  unfold map_cells. induction rows as [|row rows IH]; [done|].
  rewrite fmap_cons, !filter_cons.
  destruct (decide (row_key (Text <$> row) ∉ keys)); by rewrite IH.
Qed.

Lemma merge_existing_same_columns header rows df :
  columns df = header → header ≠ [] → width (length header) rows →
  merge_existing (header :: rows) df =
  inr {| columns := header;
         values := map_cells Text (kept_rows rows (values df)) ++ values df |}.
Proof.
  intros Hcols Hne Hw. destruct df as [cols new_rows]. simpl in *. subst cols.
  unfold merge_existing. rewrite frame_of_strings_width by done.
  unfold len. simpl.
  destruct rows as [|row rows]; [by destruct new_rows|].
  destruct new_rows as [|new_row new_rows]; [done|].
  set (rows' := row :: rows) in *. set (new_rows' := new_row :: new_rows) in *.
  replace ((0 <? length (map_cells Text rows')) && (0 <? length new_rows'))
    with true by done.
  destruct header as [|first_col header]; [done|].
  rewrite !column_first, !key_set_keys_of.
  assert (Hkept : kept_rows rows' new_rows' =
            filter (λ row, row_key (Text <$> row) ∉ keys_of new_rows') rows') by done.
  rewrite Hkept, <- filter_map_cells_text.
  case_bool_decide as Hempty.
  - rewrite filter_keys_none by done.
    replace (0 <? length (values _)) with true by done.
    unfold concat. simpl. by rewrite bool_decide_eq_true_2.
  - rewrite <- (filter_keys_inter (map_cells Text rows') (keys_of new_rows')).
    rewrite <- (boolean_index_filter (first_col :: header)).
    set (existing_df' := boolean_index _ _).
    assert (columns existing_df' = first_col :: header) as Hcols by done.
    clearbody existing_df'. destruct existing_df' as [cols kept].
    simpl in *. subst cols. unfold len. simpl.
    destruct kept as [|r rs]; [done|]. simpl.
    unfold concat. simpl. by rewrite bool_decide_eq_true_2.
Qed.

Ltac exec_more Hm :=
  repeat first
    [ exec_step
    | rewrite Hm
    | rewrite get_all_values_empty
    | rewrite lookup_singleton_eq
    | rewrite lookup_singleton_ne by done ].

Ltac finish_run :=
  match goal with
  | |- context [write_chunks ?g ?w ?cd ?s] =>
      let st1 := fresh "st1" in
      let ss1 := fresh "ss1" in
      edestruct (write_chunks_ok g w cd s)
        as (st1 & ss1 & -> & Hplan1 & Hfr1 & Hdi1 & Hca1 & Hss1 & Hurl1 & Hws1);
      [ reflexivity
      | simpl; repeat exec_step; reflexivity
      | simpl; repeat first [exec_step | rewrite lookup_singleton_eq]; reflexivity
      | ]
  end.

Ltac conclude_run :=
  simpl in *; eexists _, _, _;
  split_and!;
  [ reflexivity
  | assumption
  | assumption
  | unfold urls_ok; simpl;
    first [ done
          | match goal with
            | H : dicts _ = _ |- _ => rewrite H
            end;
            try rewrite lookup_insert_eq; by eauto ]
  | unfold find_worksheet;
    match goal with
    | H : spreadsheets _ !! _ = Some _ |- _ => rewrite H
    end; simpl; eassumption
  | reflexivity
  | intros ws0 Hws0; unfold find_worksheet in Hws0; simpl in Hws0;
    repeat match goal with
           | H : ?l = Some _, H' : context [?l] |- _ => rewrite H in H'; simpl in H'
           | H : ?l = None, H' : context [?l] |- _ => rewrite H in H'; simpl in H'
           end;
    simplify_eq; split_and!; try done;
    match goal with
    | H : calls _ = _ |- _ => rewrite H
    end; by rewrite <- !app_assoc
  | intros ss0 Hss0;
    repeat match goal with
           | H : ?l = Some _, H' : context [?l] |- _ => rewrite H in H'; simpl in H'
           | H : ?l = None, H' : context [?l] |- _ => rewrite H in H'; simpl in H'
           end;
    by simplify_eq
  | eexists; split; [eassumption|done] ].

(** An append run without faults: the worksheet ends up cleared and
    written with the merged frame. *)
Lemma push_append_run st df d g w sheet_urls F :
  plan st = [] → frames st !! df = Some d → urls_ok sheet_urls st →
  merge_existing (sheet_table g w st) (fillna "" d) = inr F →
  ∃ st' u ws',
    push_df_to_gsheet df g w true sheet_urls st = (inr u, st')
    ∧ plan st' = []
    ∧ frames st' = <[df := fillna "" d]> (frames st)
    ∧ urls_ok sheet_urls st'
    ∧ find_worksheet g w st' = Some ws'
    ∧ cells ws' = apply_batch ∅
        (chunk_requests start_row (columns_data_of (where_notnull_none F)))
    ∧ (∀ ws, find_worksheet g w st = Some ws →
         row_count ws' = row_count ws ∧ col_count ws' = col_count ws
         ∧ calls st' =
             calls st ++ [Authorize; ClientOpen g; GetWorksheet g w;
                          GetAllValues g w; Clear g w]
             ++ (BatchUpdate g w <$>
                   batches (columns_data_of (where_notnull_none F))))
    ∧ (∀ ss, spreadsheets st !! g = Some ss → u = url ss)
    ∧ (∃ ss', spreadsheets st' !! g = Some ss' ∧ url ss' = u).
Proof.
  intros Hplan Hdf Hsu Hm.
  destruct st as [fr di sp nu pl ca]; simpl in *; subst pl.
  unfold sheet_table, find_worksheet in Hm. simpl in Hm.
  assert (Hsu' : sheet_urls = None
                 ∨ ∃ r dd, sheet_urls = Some r ∧ di !! r = Some dd).
  { destruct sheet_urls as [r|]; [right|by left].
    destruct Hsu as [dd Hdd]. by exists r, dd. }
  clear Hsu.
  destruct (sp !! g) as [ss|] eqn:Hss; simpl in Hm.
  - destruct (worksheets ss !! w) as [ws|] eqn:Hws.
    + destruct Hsu' as [->|(r & dd & -> & Hdd)]; [|destruct (dd !! g) eqn:Hg].
      all: exec; exec_more Hm; finish_run.
      all: exec_more Hm; conclude_run.
    + simpl in Hm. injection Hm as <-.
      destruct Hsu' as [->|(r & dd & -> & Hdd)]; [|destruct (dd !! g) eqn:Hg].
      all: exec; exec_more Hws; finish_run.
      all: exec_more Hws; conclude_run.
  - injection Hm as <-.
    destruct (decide (w = "Sheet1")) as [->|Hw].
    + destruct Hsu' as [->|(r & dd & -> & Hdd)]; [|destruct (dd !! g) eqn:Hg].
      all: exec; exec_more Hss; finish_run.
      all: exec_more Hss; conclude_run.
    + destruct Hsu' as [->|(r & dd & -> & Hdd)]; [|destruct (dd !! g) eqn:Hg].
      all: exec; exec_more Hss; finish_run.
      all: exec_more Hss; conclude_run.
Qed.

Lemma Forall_filter_keeps {A} (P Q : A → Prop) `{!∀ x, Decision (Q x)} (l : list A) :
  Forall P l → Forall P (filter Q l).
Proof.
  rewrite !Forall_forall. intros Hl x [_ Hx]%list_elem_of_filter. by apply Hl.
Qed.

Lemma texts_of_notnull rows :
  Forall (Forall (λ c, isnull c = false)) rows → map_cells Text (texts rows) = rows.
Proof.
  unfold texts, map_cells. induction 1 as [|row rows Hrow _ IH]; [done|].
  rewrite !fmap_cons, IH. f_equal.
  induction Hrow as [|c row Hc _ IHrow]; [done|].
  rewrite !fmap_cons, IHrow. by destruct c.
Qed.

Lemma where_notnull_none_id F :
  Forall (Forall (λ c, isnull c = false)) (values F) → where_notnull_none F = F.
Proof.
  destruct F as [cols rows]. unfold where_notnull_none, map_cells. simpl.
  intros Hrows. f_equal.
  induction Hrows as [|row rows Hrow _ IH]; [done|].
  rewrite fmap_cons, IH. f_equal.
  induction Hrow as [|c row Hc _ IHrow]; [done|].
  rewrite fmap_cons, IHrow. by rewrite Hc.
Qed.

Lemma fillna_idem fill d : fillna fill (fillna fill d) = fillna fill d.
Proof.
  unfold fillna, map_cells. simpl. f_equal.
  rewrite <- list_fmap_compose. apply list_fmap_ext. intros _ row _. simpl.
  rewrite <- list_fmap_compose. apply list_fmap_ext. intros _ c _. simpl.
  by destruct c.
Qed.

Lemma map_cells_text_notnull (t : list (list string)) :
  Forall (Forall (λ c, isnull c = false)) (map_cells Text t).
Proof.
  unfold map_cells. apply Forall_fmap, Forall_true. intros row.
  apply Forall_fmap, Forall_true. by intros s.
Qed.

Lemma row_key_texts row :
  Forall (λ c, isnull c = false) row → row_key (Text <$> (astype_str <$> row)) = row_key row.
Proof.
  intros Hrow. unfold row_key. destruct Hrow as [|c row Hc _]; [done|].
  by destruct c.
Qed.

Lemma get_all_values_width c :
  ∃ n, width n (get_all_values c).
Proof.
  eexists. unfold width, get_all_values. apply Forall_fmap, Forall_true.
  intros r. simpl. by rewrite length_fmap, length_seq.
Qed.

Lemma merge_existing_compatible existing d n :
  columns d ≠ [] → width n existing →
  existing = [] ∨ head existing = Some (columns d) →
  merge_existing existing (fillna "" d) =
  inr {| columns := columns d;
         values := map_cells Text (kept_rows (tail existing) (values (fillna "" d)))
                   ++ values (fillna "" d) |}.
Proof.
  intros Hne Hw [->|Hhead].
  - change (merge_existing [] (fillna "" d)) with (@inr exn _ (fillna "" d)).
    replace (kept_rows (tail []) (values (fillna "" d))) with (@nil (list string))
      by (by destruct (values (fillna "" d))).
    done.
  - destruct existing as [|header rows]; [done|]. simpl in Hhead.
    injection Hhead as ->.
    apply Forall_cons in Hw as [<- Hw].
    by rewrite (merge_existing_same_columns (columns d) rows).
Qed.

Lemma columns_data_of_merged existing d :
  columns_data_of (where_notnull_none
    {| columns := columns d;
       values := map_cells Text (kept_rows (tail existing) (values (fillna "" d)))
                 ++ values (fillna "" d) |})
  = map_cells Text (merged_table existing d).
Proof.
  rewrite where_notnull_none_id.
  - unfold columns_data_of, merged_table, map_cells. simpl.
    rewrite fmap_app. f_equal. f_equal.
    symmetry. apply texts_of_notnull, fillna_notnull.
  - simpl. apply Forall_app. split; [apply map_cells_text_notnull|apply fillna_notnull].
Qed.

Lemma width_table_of d : rectangular d → width (length (columns d)) (table_of d).
Proof.
  intros Hrect. unfold table_of, texts, fillna, map_cells. simpl.
  apply Forall_cons. split; [done|].
  rewrite <- list_fmap_compose. apply Forall_fmap.
  eapply Forall_impl; [exact Hrect|]. intros row Hrow. simpl.
  by rewrite !length_fmap.
Qed.

Lemma width_merged existing d :
  rectangular d → width (length (columns d)) (tail existing) →
  width (length (columns d)) (merged_table existing d).
Proof.
  intros Hrect Hw. apply width_table_of in Hrect.
  apply Forall_cons in Hrect as [_ Hnew].
  apply Forall_cons. split; [done|]. apply Forall_app. split; [|done].
  unfold kept_rows. destruct (values _); [done|]. by apply Forall_filter_keeps.
Qed.

Lemma tight_merged existing d : tight (table_of d) → tight (merged_table existing d).
Proof.
  unfold table_of, merged_table. intros [(row & Hlast & Hrow) Hcol]. split.
  - exists row. split; [|done].
    unfold kept_rows.
    destruct (values (fillna "" d)) as [|new_row new_rows] eqn:Hnew; [done|].
    set (kept := filter _ _). clearbody kept.
    unfold texts, map_cells in *. rewrite fmap_cons in *.
    rewrite last_cons in Hlast. rewrite last_cons, last_app.
    destruct (last (_ :: _)) eqn:Hl; [done|].
    by apply last_None in Hl.
  - apply Exists_cons in Hcol as [Hhead|Hnew]; [by left|]. right.
    apply Exists_app. by right.
Qed.

Lemma sheet_table_width g w st : ∃ n, width n (sheet_table g w st).
Proof.
  unfold sheet_table. destruct (find_worksheet g w st).
  - apply get_all_values_width.
  - exists 0. constructor.
Qed.

Lemma compatible_width existing d n :
  width n existing → existing = [] ∨ head existing = Some (columns d) →
  width (length (columns d)) (tail existing).
Proof.
  intros Hw [->|Hhead]; [constructor|].
  destruct existing as [|header rows]; [done|]. simpl in *.
  injection Hhead as ->. by apply Forall_cons in Hw as [<- Hw].
Qed.

(** An append run without faults on a worksheet whose header is that of
    the frame: what the worksheet holds, and returns, afterwards. *)
Lemma append_run_table st df d g w sheet_urls :
  plan st = [] → frames st !! df = Some d → urls_ok sheet_urls st →
  presentable d → compatible g w d st →
  ∃ st' u ws',
    push_df_to_gsheet df g w true sheet_urls st = (inr u, st')
    ∧ plan st' = []
    ∧ frames st' = <[df := fillna "" d]> (frames st)
    ∧ urls_ok sheet_urls st'
    ∧ find_worksheet g w st' = Some ws'
    ∧ cells ws' = cells_of_table (merged_table (sheet_table g w st) d)
    ∧ sheet_table g w st' = merged_table (sheet_table g w st) d
    ∧ (∀ ws, find_worksheet g w st = Some ws →
         row_count ws' = row_count ws ∧ col_count ws' = col_count ws)
    ∧ (∀ ss, spreadsheets st !! g = Some ss → u = url ss)
    ∧ (∃ ss', spreadsheets st' !! g = Some ss' ∧ url ss' = u).
Proof.
  intros Hplan Hdf Hsu [(Hrect & _ & Hne) Htight] Hcompat.
  destruct (sheet_table_width g w st) as [n Hw].
  pose proof (merge_existing_compatible _ d n Hne Hw Hcompat) as Hm.
  destruct (push_append_run st df d g w sheet_urls _ Hplan Hdf Hsu Hm)
    as (st' & u & ws' & Hrun & Hplan' & Hfr & Hsu' & Hws' & Hcells & Hsame & Hu & Hss').
  rewrite columns_data_of_merged in Hcells.
  exists st', u, ws'. split_and!; try done.
  - unfold sheet_table. rewrite Hws', Hcells.
    apply (get_all_values_cells_of_table _ (length (columns d))).
    + apply width_merged; [done|]. by eapply compatible_width.
    + by apply tight_merged.
  - intros ws Hws. by destruct (Hsame ws Hws) as (? & ? & _).
Qed.

Lemma elem_of_keys_of row rows : row ∈ rows → row_key row ∈ keys_of rows.
Proof.
  intros Hrow. unfold keys_of. apply elem_of_list_to_set, list_elem_of_fmap. eauto.
Qed.

Lemma row_key_of_texts rows row :
  Forall (Forall (λ c, isnull c = false)) rows →
  row ∈ texts rows → row_key (Text <$> row) ∈ keys_of rows.
Proof.
  intros Hrows (cells & -> & Hcells)%list_elem_of_fmap.
  rewrite row_key_texts; [by apply elem_of_keys_of|].
  by eapply Forall_forall in Hrows.
Qed.

(** C1: in append mode, on a worksheet that holds data rows under the
    labels of the frame, with a frame that has rows: the rows of the
    worksheet whose identifier is an identifier of the frame are dropped,
    and what is written, after the worksheet is cleared, is the header,
    the rows that are left, in their order, and then the rows of the
    frame, in their order.  So a row of the result that carries an
    identifier of the frame is a row of the frame. *)
Theorem append_replaces_matching_rows st df d g w sheet_urls rows :
  plan st = [] → frames st !! df = Some d → urls_ok sheet_urls st →
  well_formed d →
  sheet_table g w st = columns d :: rows →
  rows ≠ [] → values d ≠ [] →
  let new_rows := values (fillna "" d) in
  let survivors :=
    filter (λ row, row_key (Text <$> row) ∉ keys_of new_rows) rows in
  let table := columns d :: survivors ++ texts new_rows in
  ∃ st' u ws',
    push_df_to_gsheet df g w true sheet_urls st = (inr u, st')
    ∧ find_worksheet g w st' = Some ws'
    ∧ cells ws' = cells_of_table table
    ∧ calls st' =
        calls st ++ [Authorize; ClientOpen g; GetWorksheet g w;
                     GetAllValues g w; Clear g w]
        ++ (BatchUpdate g w <$> batches (map_cells Text table))
    ∧ (∀ row, row ∈ rows → row_key (Text <$> row) ∈ keys_of new_rows →
         row ∉ survivors)
    ∧ (∀ row, row ∈ survivors ++ texts new_rows →
         row_key (Text <$> row) ∈ keys_of new_rows → row ∈ texts new_rows).
Proof.
  intros Hplan Hdf Hsu (Hrect & _ & Hne) Htable Hrows Hnew new_rows survivors table.
  destruct (sheet_table_width g w st) as [n Hw].
  assert (Hcompat : sheet_table g w st = [] ∨
                    head (sheet_table g w st) = Some (columns d))
    by (right; by rewrite Htable).
  pose proof (merge_existing_compatible _ d n Hne Hw Hcompat) as Hm.
  destruct (push_append_run st df d g w sheet_urls _ Hplan Hdf Hsu Hm)
    as (st' & u & ws' & Hrun & _ & _ & _ & Hws' & Hcells & Hsame & _).
  rewrite columns_data_of_merged in Hcells, Hsame.
  assert (Hmerged : merged_table (sheet_table g w st) d = table).
  { unfold merged_table, table, survivors, new_rows, kept_rows.
    rewrite Htable. cbn [tail].
    assert (values (fillna "" d) ≠ []) as Hfilled
      by (unfold fillna, map_cells; simpl; by destruct (values d)).
    by destruct (values (fillna "" d)). }
  rewrite Hmerged in Hcells, Hsame.
  assert (∃ ws, find_worksheet g w st = Some ws) as [ws Hws].
  { unfold sheet_table in Htable. destruct (find_worksheet g w st); [eauto|done]. }
  destruct (Hsame ws Hws) as (_ & _ & Hcalls).
  exists st', u, ws'. split_and!; try done.
  - intros row _ Hkey [Hout _]%list_elem_of_filter. by apply Hout.
  - intros row [[Hout _]%list_elem_of_filter|Hin]%elem_of_app Hkey; [|done].
    by destruct Hout.
Qed.

Lemma kept_rows_nonempty rows new_rows :
  new_rows ≠ [] →
  kept_rows rows new_rows =
  filter (λ row, row_key (Text <$> row) ∉ keys_of new_rows) rows.
Proof. by destruct new_rows. Qed.



Lemma presentable_fillna d : presentable d → presentable (fillna "" d).
Proof.
  intros [(Hrect & Hnd & Hne) Htight]. split; [split_and!|]; try done.
  - unfold rectangular, fillna, map_cells in *. simpl.
    apply Forall_fmap. eapply Forall_impl; [exact Hrect|].
    intros row Hrow. simpl. by rewrite length_fmap.
  - unfold table_of in *. by rewrite fillna_idem.
Qed.


(** Appending the same frame again keeps what the first append kept. *)
Lemma kept_rows_again existing d :
  let new_rows := values (fillna "" d) in
  kept_rows (tail (merged_table existing d)) new_rows = kept_rows (tail existing) new_rows.
Proof.
  intros new_rows. unfold merged_table. cbn [tail]. fold new_rows.
  unfold kept_rows. destruct new_rows as [|r rs] eqn:Hnew; [done|].
  rewrite <- Hnew. rewrite filter_app.
  rewrite (filter_none _ (texts new_rows)).
  - rewrite app_nil_r. apply filter_all, Forall_forall.
    by intros row [Hout _]%list_elem_of_filter.
  - apply Forall_forall. intros row Hrow Hout. apply Hout.
    apply row_key_of_texts; [|done]. apply fillna_notnull.
Qed.

Lemma merged_table_again existing d :
  merged_table (merged_table existing d) (fillna "" d) = merged_table existing d.
Proof.
  unfold merged_table at 1. rewrite fillna_idem, kept_rows_again. done.
Qed.

(** C2: two append runs with the same frame, on a worksheet that is
    absent or blank or carries the labels of the frame.  The second run
    returns what the first returned and leaves the worksheet as the
    first left it: it holds the header, the rows that the first run
    kept, none of which carries an identifier of the frame, and the rows
    of the frame, once. *)
Theorem append_twice_same_table st df d g w sheet_urls :
  plan st = [] → frames st !! df = Some d → urls_ok sheet_urls st →
  presentable d → compatible g w d st →
  let first := push_df_to_gsheet df g w true sheet_urls st in
  let second := push_df_to_gsheet df g w true sheet_urls first.2 in
  let new_rows := values (fillna "" d) in
  (∃ u, first.1 = inr u ∧ second.1 = inr u)
  ∧ find_worksheet g w second.2 = find_worksheet g w first.2
  ∧ is_Some (find_worksheet g w first.2)
  ∧ sheet_table g w second.2 = sheet_table g w first.2
  ∧ ∃ kept,
      sheet_table g w first.2 = columns d :: kept ++ texts new_rows
      ∧ Forall (λ row, row_key (Text <$> row) ∉ keys_of new_rows) kept.
Proof.
  intros Hplan Hdf Hsu Hpres Hcompat first second new_rows.
  destruct (append_run_table st df d g w sheet_urls Hplan Hdf Hsu Hpres Hcompat)
    as (st1 & u & ws1 & Hrun1 & Hplan1 & Hfr1 & Hsu1 & Hws1 & Hcells1 & Htable1
        & _ & _ & (ss1 & Hss1 & Hurl1)).
  assert (Hdf1 : frames st1 !! df = Some (fillna "" d))
    by (by rewrite Hfr1, lookup_insert_eq).
  assert (Hcompat1 : compatible g w (fillna "" d) st1)
    by (right; by rewrite Htable1).
  destruct (append_run_table st1 df (fillna "" d) g w sheet_urls Hplan1 Hdf1 Hsu1
              (presentable_fillna d Hpres) Hcompat1)
    as (st2 & u2 & ws2 & Hrun2 & _ & _ & _ & Hws2 & Hcells2 & Htable2
        & Hdims & Hu2 & _).
  rewrite Htable1, merged_table_again in Hcells2, Htable2.
  subst first second. rewrite Hrun1. simpl. rewrite Hrun2. simpl.
  split_and!.
  - exists u. split; [done|]. f_equal. rewrite (Hu2 ss1 Hss1). done.
  - rewrite Hws1, Hws2. f_equal.
    destruct (Hdims ws1 Hws1) as [Hrows Hcols].
    destruct ws1, ws2; simpl in *; congruence.
  - by rewrite Hws1.
  - by rewrite Htable1, Htable2.
  - exists (kept_rows (tail (sheet_table g w st)) new_rows). split; [done|].
    unfold kept_rows. destruct new_rows; [constructor|].
    apply Forall_forall. by intros row [Hout _]%list_elem_of_filter.
Qed.

(** X21: an append of a frame on a worksheet that is absent or blank,
    then an append of a second frame with the same labels, at least one
    row, and no identifier of the first: the worksheet returns the
    header, the rows of the first frame and then the rows of the second,
    each in their order. *)
Theorem append_disjoint_frames st df1 df2 d1 d2 g w sheet_urls :
  plan st = [] → frames st !! df1 = Some d1 → frames st !! df2 = Some d2 →
  urls_ok sheet_urls st →
  presentable d1 → presentable d2 → columns d1 = columns d2 →
  sheet_table g w st = [] →
  values d2 ≠ [] →
  keys_of (values (fillna "" d1)) ∩ keys_of (values (fillna "" d2)) = ∅ →
  let first := push_df_to_gsheet df1 g w true sheet_urls st in
  let second := push_df_to_gsheet df2 g w true sheet_urls first.2 in
  (∃ u, first.1 = inr u ∧ second.1 = inr u)
  ∧ sheet_table g w first.2 = columns d1 :: texts (values (fillna "" d1))
  ∧ sheet_table g w second.2 =
      columns d1 :: texts (values (fillna "" d1)) ++ texts (values (fillna "" d2)).
Proof.
  intros Hplan Hdf1 Hdf2 Hsu Hpres1 Hpres2 Hcols Hblank Hnew Hdisj first second.
  assert (Hfilled : values (fillna "" d2) ≠ [])
    by (unfold fillna, map_cells; simpl; by destruct (values d2)).
  assert (Hne : df1 ≠ df2).
  { intros <-. assert (d1 = d2) as <- by congruence.
    destruct (values (fillna "" d1)) as [|row rows] eqn:Hrows; [done|].
    assert (row_key row ∈ keys_of (row :: rows)) as Hkey
      by (apply elem_of_keys_of; left).
    apply (not_elem_of_empty (C:=gset string) (row_key row)).
    rewrite <- Hdisj. by apply elem_of_intersection. }
  destruct (append_run_table st df1 d1 g w sheet_urls Hplan Hdf1 Hsu Hpres1)
    as (st1 & u & ws1 & Hrun1 & Hplan1 & Hfr1 & Hsu1 & Hws1 & Hcells1 & Htable1
        & _ & _ & (ss1 & Hss1 & Hurl1)); [by left|].
  assert (Hdf2' : frames st1 !! df2 = Some d2)
    by (by rewrite Hfr1, lookup_insert_ne).
  assert (Hcompat1 : compatible g w d2 st1)
    by (right; by rewrite Htable1, <- Hcols).
  destruct (append_run_table st1 df2 d2 g w sheet_urls Hplan1 Hdf2' Hsu1 Hpres2
              Hcompat1)
    as (st2 & u2 & ws2 & Hrun2 & _ & _ & _ & Hws2 & Hcells2 & Htable2 & _ & Hu2 & _).
  assert (Htable1' : sheet_table g w st1 =
                     columns d1 :: texts (values (fillna "" d1))).
  { rewrite Htable1, Hblank. unfold merged_table, kept_rows. cbn [tail].
    by destruct (values (fillna "" d1)). }
  subst first second. rewrite Hrun1. simpl. rewrite Hrun2. simpl.
  split_and!.
  - exists u. split; [done|]. f_equal. by rewrite (Hu2 ss1 Hss1).
  - done.
  - rewrite Htable2, Htable1'. unfold merged_table. cbn [tail].
    rewrite <- Hcols. f_equal. f_equal.
    rewrite kept_rows_nonempty by done.
    apply filter_all, Forall_forall. intros row Hrow Hin.
    apply row_key_of_texts in Hrow; [|apply fillna_notnull].
    apply (not_elem_of_empty (C:=gset string) (row_key (Text <$> row))).
    rewrite <- Hdisj. by apply elem_of_intersection.
Qed.

(** ** The frames that the scraper hands over *)
Lemma process_detail_links cfg i v st :
  Forall (λ r, Scraper.drive_link r ≠ "") (Scraper.order_data st) →
  Forall (λ r, Scraper.drive_link r ≠ "")
    (Scraper.order_data (Scraper.process_detail cfg i v st)).
Proof.
  intros Hst. unfold Scraper.process_detail.
  destruct (Scraper.location_found v); [|done]. cbn [negb].
  destruct (Scraper.extract_date _ _ _ _) as [dp path].
  destruct (Scraper.screenshot_ok v); [|done]. cbn [negb].
  destruct (Scraper.drive_file_id v) as [id|]; [|done]. cbn.
  apply Forall_app. split; [done|]. by repeat constructor.
Qed.

Lemma process_orders_links cfg i views st :
  Forall (λ r, Scraper.drive_link r ≠ "") (Scraper.order_data st) →
  Forall (λ r, Scraper.drive_link r ≠ "")
    (Scraper.order_data (Scraper.process_orders cfg i views st)).
Proof.
  revert i st. induction views as [|v views IH]; intros i st Hst; [done|].
  cbn [Scraper.process_orders].
  destruct (Scraper.buttons_found v <=? i); [done|].
  destruct (Scraper.click_ok v); [|done]. cbn [negb].
  destruct (Scraper.reload_ok v); cbn [negb].
  - by apply IH, process_detail_links.
  - by apply process_detail_links.
Qed.

Lemma frame_of_orders_nonempty rows :
  rows ≠ [] →
  frame_of_orders rows =
  {| columns := ["order_id"; "date"; "drive_link"; "amount"];
     values := (λ r, [Text (Scraper.order_id r); Text (Scraper.date r);
                      Text (Scraper.drive_link r); Text (Scraper.amount r)])
               <$> rows |}.
Proof. by destruct rows. Qed.

Lemma frame_of_orders_presentable rows :
  rows ≠ [] → Forall (λ r, Scraper.drive_link r ≠ "") rows →
  presentable (frame_of_orders rows).
Proof.
  intros Hne Hlinks. rewrite frame_of_orders_nonempty by done.
  split; [split_and!|split].
  - apply Forall_fmap, Forall_true. by intros row.
  - compute_done.
  - done.
  - unfold table_of, texts, fillna, map_cells. cbn [columns values].
    rewrite <- !list_fmap_compose.
    destruct (last rows) as [r'|] eqn:Hlast; [|by apply last_None in Hlast].
    eexists. split.
    + rewrite last_cons, fmap_last, Hlast. reflexivity.
    + assert (Scraper.drive_link r' ≠ "") as Hlink.
      { eapply Forall_forall in Hlinks; [done|]. by eapply last_Some_elem_of. }
      cbn. do 2 apply Exists_cons_tl. by apply Exists_cons_hd.
  - apply Exists_cons_hd. by exists "amount".
Qed.

(** Whatever the pages answer, the frame that [main] builds from a
    non-empty [order_data] comes back from the worksheet as written. *)
Lemma scraped_frame_presentable cfg views :
  Scraper.order_data (Scraper.main_loop cfg views) ≠ [] →
  presentable (frame_of_orders (Scraper.order_data (Scraper.main_loop cfg views))).
Proof.
  intros Hne. apply frame_of_orders_presentable; [done|].
  apply process_orders_links. constructor.
Qed.

(** ** The properties at sample inputs *)
Lemma well_formed_ledger_frame rows :
  Forall (λ row, length row = 4) rows →
  well_formed {| columns := ledger_columns; values := rows |}.
Proof. intros Hrows. split_and!; [done|compute_done|done]. Qed.

Lemma presentable_frame_a : presentable frame_a.
Proof.
  split; [apply well_formed_ledger_frame; by repeat constructor|].
  split.
  - eexists. split; [reflexivity|]. by apply Exists_cons_hd.
  - apply Exists_cons_hd. eexists. by split; [reflexivity|].
Qed.

Lemma presentable_frame_b : presentable frame_b.
Proof.
  split; [apply well_formed_ledger_frame; by repeat constructor|].
  split.
  - eexists. split; [reflexivity|]. by apply Exists_cons_hd.
  - apply Exists_cons_hd. eexists. by split; [reflexivity|].
Qed.

Lemma presentable_frame_empty : presentable frame_empty.
Proof.
  split; [apply well_formed_ledger_frame; by repeat constructor|].
  split.
  - eexists. split; [reflexivity|]. by apply Exists_cons_hd.
  - apply Exists_cons_hd. eexists. by split; [reflexivity|].
Qed.

Lemma append_replaces_matching_rows_example :
  ∃ st' u ws',
    push_df_to_gsheet 0 "Swiggy Work Orders" "Orders" true None (ledger (cells_of_table old_table))
      = (inr u, st')
    ∧ find_worksheet "Swiggy Work Orders" "Orders" st' = Some ws'
    ∧ cells ws' = cells_of_table
        [ledger_columns;
         ["333"; "Sat, 3 Jan"; "link-3"; "40"];
         ["111"; "Mon, 5 Jan"; "link-a"; "250"]].
Proof.
  destruct (append_replaces_matching_rows (ledger (cells_of_table old_table))
              0 frame_a "Swiggy Work Orders" "Orders" None (tail old_table))
    as (st' & u & ws' & Hrun & Hws & Hcells & _).
  - reflexivity.
  - reflexivity.
  - exact I.
  - apply well_formed_ledger_frame. by repeat constructor.
  - vm_compute. reflexivity.
  - done.
  - done.
  - exists st', u, ws'. split_and!; [done|done|].
    rewrite Hcells. vm_compute. reflexivity.
Defined.

Lemma append_twice_same_table_example :
  let first :=
    push_df_to_gsheet 0 "Swiggy Work Orders" "Orders" true None (ledger (cells_of_table old_table)) in
  let second := push_df_to_gsheet 0 "Swiggy Work Orders" "Orders" true None first.2 in
  find_worksheet "Swiggy Work Orders" "Orders" second.2 = find_worksheet "Swiggy Work Orders" "Orders" first.2
  ∧ sheet_table "Swiggy Work Orders" "Orders" second.2 = sheet_table "Swiggy Work Orders" "Orders" first.2.
Proof.
  destruct (append_twice_same_table (ledger (cells_of_table old_table))
              0 frame_a "Swiggy Work Orders" "Orders" None)
    as (_ & Hws & _ & Htable & _).
  - reflexivity.
  - reflexivity.
  - exact I.
  - apply presentable_frame_a.
  - right. vm_compute. reflexivity.
  - by split.
Defined.

Lemma append_disjoint_frames_example :
  let first := push_df_to_gsheet 0 "Swiggy Work Orders" "Orders" true None no_ledger in
  let second := push_df_to_gsheet 1 "Swiggy Work Orders" "Orders" true None first.2 in
  sheet_table "Swiggy Work Orders" "Orders" second.2 =
    [ledger_columns;
     ["111"; "Mon, 5 Jan"; "link-a"; "250"];
     ["222"; ""; "link-b"; "90"]].
Proof.
  destruct (append_disjoint_frames no_ledger 0 1 frame_a frame_b "Swiggy Work Orders" "Orders" None)
    as (_ & _ & Htable).
  - reflexivity.
  - reflexivity.
  - reflexivity.
  - exact I.
  - apply presentable_frame_a.
  - apply presentable_frame_b.
  - reflexivity.
  - reflexivity.
  - done.
  - vm_compute. reflexivity.
  - exact Htable.
Defined.




Lemma three_batches_example :
  ∃ b1 b2 b3,
    batches big_table = [b1; b2; b3]
    ∧ covers b1 1 3500 ∧ covers b2 3501 7000 ∧ covers b3 7001 7001.
Proof.
  destruct (three_batches_for_7001_rows "Swiggy Work Orders" "Orders" big_table (ledger ∅)
              {| url := "https://docs.google.com/spreadsheets/d/1";
                 worksheets := {["Orders" := {| row_count := 12; col_count := 5;
                                          cells := ∅ |}]} |}
              {| row_count := 12; col_count := 5; cells := ∅ |})
    as [(b1 & b2 & b3 & Hb & H1 & H2 & H3 & _) _].
  - vm_compute. reflexivity.
  - apply Forall_replicate. done.
  - reflexivity.
  - reflexivity.
  - reflexivity.
  - by exists b1, b2, b3.
Defined.

Lemma replace_mode_recreates_example :
  let st := ledger_with_plan [None; None; None; None;
                              Some (HttpStatus 409); Some (HttpStatus 500)] in
  (push_df_to_gsheet 0 "Swiggy Work Orders" "Orders" false None st).1 = inl (APIError 500)
  ∧ calls (push_df_to_gsheet 0 "Swiggy Work Orders" "Orders" false None st).2 =
      [Authorize; ClientOpen "Swiggy Work Orders"; GetWorksheet "Swiggy Work Orders" "Orders"; DelWorksheet "Swiggy Work Orders" "Orders";
       AddWorksheet "Swiggy Work Orders" "Orders" 11 5; Sleep 5; AddWorksheet "Swiggy Work Orders" "Orders" 11 5].
Proof.
  destruct (replace_mode_recreates
              (ledger_with_plan [None; None; None; None;
                                 Some (HttpStatus 409); Some (HttpStatus 500)])
              0 frame_a "Swiggy Work Orders" "Orders"
              {| url := "https://docs.google.com/spreadsheets/d/1";
                 worksheets := {["Orders" := {| row_count := 12; col_count := 5;
                                          cells := cells_of_table old_table |}]} |}
              {| row_count := 12; col_count := 5;
                 cells := cells_of_table old_table |} None)
    as (_ & _ & Hretry & _).
  - reflexivity.
  - reflexivity.
  - reflexivity.
  - exact I.
  - exact (Hretry (HttpStatus 500) [] eq_refl).
Defined.

Lemma fillna_mutates_caller_frame_example :
  let st := ledger_with_plan [Some (Transport "unreachable")] in
  let run := push_df_to_gsheet 1 "Swiggy Work Orders" "Orders" true None st in
  frames run.2 !! 1 =
    Some {| columns := ledger_columns;
            values := [[Text "222"; Text ""; Text "link-b"; Text "90"]] |}
  ∧ run.1 = inl (OtherError "unreachable").
Proof.
  destruct (fillna_mutates_caller_frame
              (ledger_with_plan [Some (Transport "unreachable")])
              1 frame_b "Swiggy Work Orders" "Orders" true None)
    as (Hframes & _ & _ & Hfirst).
  - reflexivity.
  - split.
    + rewrite Hframes. reflexivity.
    + exact (proj1 (Hfirst (Transport "unreachable") [] eq_refl)).
Defined.

(** ** Replace mode and the creation paths *)
Ltac conclude_fresh :=
  simpl in *; eexists _, _, _;
  split_and!;
  [ reflexivity
  | assumption
  | assumption
  | unfold urls_ok; simpl;
    first [ done
          | match goal with
            | H : dicts _ = _ |- _ => rewrite H
            end;
            try rewrite lookup_insert_eq; by eauto ]
  | match goal with
    | H : spreadsheets _ !! _ = Some _ |- _ => rewrite H
    end; simpl; eassumption
  | eassumption
  | reflexivity
  | first [ assumption | reflexivity ] ].

Lemma push_replace_run st df d g w sheet_urls :
  plan st = [] → frames st !! df = Some d → urls_ok sheet_urls st →
  ∃ st' u ss',
    push_df_to_gsheet df g w false sheet_urls st = (inr u, st')
    ∧ plan st' = []
    ∧ frames st' = <[df := fillna "" d]> (frames st)
    ∧ urls_ok sheet_urls st'
    ∧ find_worksheet g w st' =
        Some {| row_count := len d + 10; col_count := length (columns d) + 1;
                cells := apply_batch ∅
                  (chunk_requests start_row (columns_data_of (fillna "" d))) |}
    ∧ spreadsheets st' !! g = Some ss' ∧ url ss' = u
    ∧ u = default (new_url st) (url <$> spreadsheets st !! g).
Proof.
  intros Hplan Hdf Hsu.
  destruct st as [fr di sp nu pl ca]; simpl in *; subst pl.
  assert (Hlen : len (fillna "" d) = len d)
    by (unfold len, fillna, map_cells; simpl; by rewrite length_fmap).
  assert (Hwn : where_notnull_none (fillna "" d) = fillna "" d)
    by (apply where_notnull_none_id, fillna_notnull).
  assert (Hsu' : sheet_urls = None
                 ∨ ∃ r dd, sheet_urls = Some r ∧ di !! r = Some dd).
  { destruct sheet_urls as [r|]; [right|by left].
    destruct Hsu as [dd Hdd]. by exists r, dd. }
  clear Hsu.
  destruct (sp !! g) as [ss|] eqn:Hss.
  - destruct (worksheets ss !! w) as [ws|] eqn:Hws.
    + destruct Hsu' as [->|(r & dd & -> & Hdd)]; [|destruct (dd !! g) eqn:Hg].
      all: exec; rewrite Hwn, Hlen; finish_run; exec_more Hss; conclude_fresh.
    + destruct Hsu' as [->|(r & dd & -> & Hdd)]; [|destruct (dd !! g) eqn:Hg].
      all: exec; rewrite Hwn, Hlen; finish_run; exec_more Hss; conclude_fresh.
  - destruct (decide (w = "Sheet1")) as [->|Hw].
    + destruct Hsu' as [->|(r & dd & -> & Hdd)]; [|destruct (dd !! g) eqn:Hg].
      all: exec; exec_more Hss; rewrite Hwn, Hlen; finish_run; exec_more Hss;
        conclude_fresh.
    + destruct Hsu' as [->|(r & dd & -> & Hdd)]; [|destruct (dd !! g) eqn:Hg].
      all: exec; exec_more Hss; rewrite Hwn, Hlen; finish_run; exec_more Hss;
        conclude_fresh.
Qed.

Lemma columns_data_of_filled d :
  columns_data_of (fillna "" d) = map_cells Text (table_of d).
Proof.
  unfold columns_data_of, table_of, map_cells. rewrite fmap_cons. f_equal.
  symmetry. apply texts_of_notnull, fillna_notnull.
Qed.

Lemma cells_of_filled d :
  apply_batch ∅ (chunk_requests start_row (columns_data_of (fillna "" d)))
  = cells_of_table (table_of d).
Proof. unfold cells_of_table. by rewrite columns_data_of_filled. Qed.

(** X9: replace mode, when every call succeeds: whatever the worksheet held,
    and whether it or the spreadsheet existed, the worksheet is a new
    one of [len(df) + 10] rows and one column more than the frame, and
    it returns the frame's table; the call returns the URL of the
    spreadsheet, the one it had or the one it was created with. *)
Theorem replace_leaves_frame_only st df d g w sheet_urls :
  plan st = [] → frames st !! df = Some d → urls_ok sheet_urls st →
  presentable d →
  ∃ st' u,
    push_df_to_gsheet df g w false sheet_urls st = (inr u, st')
    ∧ find_worksheet g w st' =
        Some {| row_count := len d + 10; col_count := length (columns d) + 1;
                cells := cells_of_table (table_of d) |}
    ∧ sheet_table g w st' = table_of d
    ∧ u = default (new_url st) (url <$> spreadsheets st !! g).
Proof.
  intros Hplan Hdf Hsu [(Hrect & _ & _) Htight].
  destruct (push_replace_run st df d g w sheet_urls Hplan Hdf Hsu)
    as (st' & u & ss' & Hrun & _ & _ & _ & Hws & _ & _ & Hu).
  rewrite cells_of_filled in Hws.
  exists st', u. split_and!; [done..| |done].
  unfold sheet_table. rewrite Hws. cbn [cells].
  apply (get_all_values_cells_of_table _ (length (columns d))); [|done].
  by apply width_table_of.
Qed.

Lemma replace_leaves_frame_only_example :
  sheet_table "Swiggy Work Orders" "Orders"
    (push_df_to_gsheet 1 "Swiggy Work Orders" "Orders" false None
       (ledger (cells_of_table old_table))).2
  = [ledger_columns; ["222"; ""; "link-b"; "90"]].
Proof.
  destruct (replace_leaves_frame_only (ledger (cells_of_table old_table)) 1 frame_b
              "Swiggy Work Orders" "Orders" None eq_refl eq_refl I presentable_frame_b)
    as (st' & u & Hrun & _ & Htable & _).
  rewrite Hrun. exact Htable.
Defined.

(** X10: when the spreadsheet is there and the worksheet is not, both modes
    do the same: the worksheet is created with [len(df) + 10] rows and
    one column more than the frame, nothing is read, deleted or cleared,
    and the frame is written. *)
Theorem missing_worksheet_is_created st df d g w ss update_existing sheet_urls :
  plan st = [] → frames st !! df = Some d → urls_ok sheet_urls st →
  spreadsheets st !! g = Some ss → worksheets ss !! w = None →
  ∃ st',
    push_df_to_gsheet df g w update_existing sheet_urls st = (inr (url ss), st')
    ∧ calls st' =
        calls st ++ [Authorize; ClientOpen g; GetWorksheet g w;
                     AddWorksheet g w (len d + 10) (length (columns d) + 1)]
        ++ (BatchUpdate g w <$> batches (columns_data_of (fillna "" d)))
    ∧ find_worksheet g w st' =
        Some {| row_count := len d + 10; col_count := length (columns d) + 1;
                cells := cells_of_table (table_of d) |}.
Proof.
  intros Hplan Hdf Hsu Hss Hws.
  destruct st as [fr di sp nu pl ca]; simpl in *; subst pl.
  assert (Hlen : len (fillna "" d) = len d)
    by (unfold len, fillna, map_cells; simpl; by rewrite length_fmap).
  assert (Hwn : where_notnull_none (fillna "" d) = fillna "" d)
    by (apply where_notnull_none_id, fillna_notnull).
  assert (Hsu' : sheet_urls = None
                 ∨ ∃ r dd, sheet_urls = Some r ∧ di !! r = Some dd).
  { destruct sheet_urls as [r|]; [right|by left].
    destruct Hsu as [dd Hdd]. by exists r, dd. }
  clear Hsu. rewrite <- cells_of_filled.
  destruct update_existing;
    (destruct Hsu' as [->|(r & dd & -> & Hdd)]; [|destruct (dd !! g) eqn:Hg]).
  all: exec; exec_more Hws; rewrite Hwn, Hlen; finish_run; exec_more Hws.
  all: simpl in *; eexists; split_and!;
    [ by rewrite Hurl1
    | rewrite Hca1; by rewrite <- !app_assoc
    | rewrite Hss1; simpl; exact Hws1 ].
Qed.

Lemma missing_worksheet_is_created_example :
  calls (push_df_to_gsheet 0 "Swiggy Work Orders" "March" true None (ledger ∅)).2
  = [Authorize; ClientOpen "Swiggy Work Orders";
     GetWorksheet "Swiggy Work Orders" "March";
     AddWorksheet "Swiggy Work Orders" "March" 11 5]
    ++ (BatchUpdate "Swiggy Work Orders" "March"
          <$> batches (columns_data_of (fillna "" frame_a))).
Proof.
  destruct (missing_worksheet_is_created (ledger ∅) 0 frame_a
              "Swiggy Work Orders" "March"
              {| url := "https://docs.google.com/spreadsheets/d/1";
                 worksheets := {["Orders" := {| row_count := 12; col_count := 5;
                                                cells := ∅ |}]} |}
              true None eq_refl eq_refl I eq_refl eq_refl)
    as (st' & Hrun & Hcalls & _).
  rewrite Hrun. exact Hcalls.
Defined.

(** X11: when there is no spreadsheet of the name, it is created and shared,
    and the worksheet is created in it and written, in both modes; the
    call returns the URL of the new spreadsheet.  An opening that fails
    for another reason is raised, and nothing is created; a sharing that
    fails is raised too, and leaves the new spreadsheet without the
    worksheet. *)
Theorem missing_spreadsheet_is_created st df d g w update_existing sheet_urls :
  frames st !! df = Some d → urls_ok sheet_urls st →
  spreadsheets st !! g = None → w ≠ "Sheet1" →
  let run := push_df_to_gsheet df g w update_existing sheet_urls st in
  let rows := len d + 10 in
  let cols := length (columns d) + 1 in
  (plan st = [] →
     run.1 = inr (new_url st)
     ∧ calls run.2 =
         calls st ++ [Authorize; ClientOpen g; ClientCreate g; Share g;
                      GetWorksheet g w; AddWorksheet g w rows cols]
         ++ (BatchUpdate g w <$> batches (columns_data_of (fillna "" d)))
     ∧ ∃ ss', spreadsheets run.2 !! g = Some ss' ∧ url ss' = new_url st
              ∧ worksheets ss' !! w =
                  Some {| row_count := rows; col_count := cols;
                          cells := cells_of_table (table_of d) |})
  ∧ (∀ f rest, plan st = None :: Some f :: rest →
       run.1 = inl (exn_of_fault f)
       ∧ calls run.2 = calls st ++ [Authorize; ClientOpen g]
       ∧ spreadsheets run.2 = spreadsheets st)
  ∧ (∀ f rest, plan st = None :: None :: None :: Some f :: rest →
       run.1 = inl (exn_of_fault f)
       ∧ calls run.2 = calls st ++ [Authorize; ClientOpen g; ClientCreate g; Share g]
       ∧ is_Some (spreadsheets run.2 !! g)
       ∧ find_worksheet g w run.2 = None).
Proof.
  intros Hdf Hsu Hss Hw run rows cols. subst run rows cols.
  destruct st as [fr di sp nu pl ca]; simpl in *.
  assert (Hlen : len (fillna "" d) = len d)
    by (unfold len, fillna, map_cells; simpl; by rewrite length_fmap).
  assert (Hwn : where_notnull_none (fillna "" d) = fillna "" d)
    by (apply where_notnull_none_id, fillna_notnull).
  assert (Hsu' : sheet_urls = None
                 ∨ ∃ r dd, sheet_urls = Some r ∧ di !! r = Some dd).
  { destruct sheet_urls as [r|]; [right|by left].
    destruct Hsu as [dd Hdd]. by exists r, dd. }
  clear Hsu. rewrite <- cells_of_filled.
  split_and!.
  - intros ->.
    destruct update_existing;
      (destruct Hsu' as [->|(r & dd & -> & Hdd)]; [|destruct (dd !! g) eqn:Hg]).
    all: exec; exec_more Hss; rewrite Hwn, Hlen; finish_run; exec_more Hss.
    all: simpl in *; split_and!;
      [ by rewrite Hurl1
      | rewrite Hca1; by rewrite <- !app_assoc
      | eexists; split_and!; [first [exact Hss1|reflexivity]|exact Hurl1|exact Hws1] ].
  - intros f rest ->. exec. destruct f; simpl; by rewrite <- !app_assoc.
  - intros f rest ->. exec.
    split_and!; [done|by rewrite <- !app_assoc|by eexists|].
    by rewrite lookup_singleton_ne.
Qed.


Lemma missing_spreadsheet_is_created_example :
  let run := push_df_to_gsheet 0 "Swiggy Work Orders" "Orders" true None no_ledger in
  run.1 = inr "https://docs.google.com/spreadsheets/d/2"
  ∧ calls run.2 =
      [Authorize; ClientOpen "Swiggy Work Orders"; ClientCreate "Swiggy Work Orders";
       Share "Swiggy Work Orders"; GetWorksheet "Swiggy Work Orders" "Orders";
       AddWorksheet "Swiggy Work Orders" "Orders" 11 5]
      ++ (BatchUpdate "Swiggy Work Orders" "Orders"
            <$> batches (columns_data_of (fillna "" frame_a))).
Proof.
  destruct (missing_spreadsheet_is_created no_ledger 0 frame_a
              "Swiggy Work Orders" "Orders" true None eq_refl I eq_refl)
    as (Hok & _ & _); [done|].
  destruct (Hok eq_refl) as (Hres & Hcalls & _). by split.
Defined.

(** ** The batches of any table *)
Lemma num_chunks_tight total : num_chunks total * batch_size < total + batch_size.
Proof.
  unfold num_chunks.
  pose proof (Nat.div_mod_eq (total + (batch_size - 1)) batch_size) as Hdiv.
  unfold batch_size in *. lia.
Qed.

Lemma chunk_nonempty cd k :
  Forall (λ row_data, row_data ≠ []) cd → k < num_chunks (length cd) →
  requests_of_chunk_index cd k ≠ [].
Proof.
  intros Hrows Hk Hnil.
  pose proof (num_chunks_tight (length cd)) as Htight.
  destruct (chunk_rows_covered cd k (k * batch_size + 1) Hrows) as (rq & Hrq & _).
  { unfold batch_size in *. nia. }
  rewrite Hnil in Hrq. by apply elem_of_nil in Hrq.
Qed.

Lemma batches_all cd :
  Forall (λ row_data, row_data ≠ []) cd →
  batches cd = requests_of_chunk_index cd <$> seq 0 (num_chunks (length cd)).
Proof.
  intros Hrows. unfold batches. apply filter_all, Forall_fmap, Forall_forall.
  intros k Hk%elem_of_seq. simpl. apply chunk_nonempty; [done|lia].
Qed.

(** X12: the batches of a table: one after the other they hold one request
    for every cell, row by row, the rows numbered from 1; none of them
    is empty.  When no row is without cells there are as many batches as
    3500 goes into the number of rows, rounded up, and the batch of
    index [k] touches the rows from [3500 k + 1] to [3500 (k + 1)], or
    to the last row, all of them and no other. *)
Theorem batches_cover_the_table (cd : list (list cell)) :
  mjoin (batches cd) = chunk_requests start_row cd
  ∧ Forall (λ b, b ≠ []) (batches cd)
  ∧ length cd ≤ num_chunks (length cd) * 3500 < length cd + 3500
  ∧ (Forall (λ row_data, row_data ≠ []) cd →
     length (batches cd) = num_chunks (length cd)
     ∧ ∀ k b, batches cd !! k = Some b →
         covers b (k * 3500 + 1) (((k + 1) * 3500) `min` length cd)).
Proof.
  split_and!.
  - apply join_batches.
  - unfold batches. apply Forall_forall. by intros b [Hb _]%list_elem_of_filter.
  - apply num_chunks_enough.
  - apply num_chunks_tight.
  - intros Hrows. rewrite batches_all by done. split.
    + by rewrite length_fmap, length_seq.
    + intros k b Hb. rewrite list_lookup_fmap in Hb.
      destruct (seq 0 (num_chunks (length cd)) !! k) as [k'|] eqn:Hk; [|done].
      apply lookup_seq in Hk as [-> _]. simpl in Hb. injection Hb as <-.
      by apply chunk_covers.
Qed.

Lemma batches_cover_the_table_example :
  length (batches (replicate 3501 [Text "x"; Text "y"])) = 2
  ∧ ∀ b, batches (replicate 3501 [Text "x"; Text "y"]) !! 1 = Some b →
      covers b 3501 3501.
Proof.
  destruct (batches_cover_the_table (replicate 3501 [Text "x"; Text "y"]))
    as (_ & _ & _ & Hall).
  destruct Hall as [Hlen Hcov]; [by apply Forall_replicate|].
  split.
  - rewrite Hlen, length_replicate. reflexivity.
  - intros b Hb. apply (Hcov 1 b) in Hb. by rewrite length_replicate in Hb.
Defined.

Lemma merge_existing_without_rows header rows df n :
  width n (header :: rows) → rows = [] ∨ values df = [] →
  merge_existing (header :: rows) df = inr df.
Proof.
  intros [<- Hw]%Forall_cons Hnone. unfold merge_existing.
  rewrite frame_of_strings_width by done. unfold len. cbn [values].
  destruct Hnone as [->| ->]; [done|].
  by rewrite andb_false_r.
Qed.

(** X13: append mode skips the merge when the worksheet holds a header and no
    row under it, or when the frame has no rows: the worksheet is
    cleared and the frame is written as it is, whatever the header was.
    With a frame without rows, the rows of the worksheet are gone. *)
Theorem append_without_rows_on_a_side st df d g w sheet_urls header rows :
  plan st = [] → frames st !! df = Some d → urls_ok sheet_urls st →
  presentable d →
  sheet_table g w st = header :: rows →
  rows = [] ∨ values d = [] →
  ∃ st' u,
    push_df_to_gsheet df g w true sheet_urls st = (inr u, st')
    ∧ sheet_table g w st' = table_of d.
Proof.
  intros Hplan Hdf Hsu [(Hrect & _ & _) Htight] Htable Hnone.
  destruct (sheet_table_width g w st) as [n Hw]. rewrite Htable in Hw.
  assert (Hm : merge_existing (sheet_table g w st) (fillna "" d) = inr (fillna "" d)).
  { rewrite Htable. apply (merge_existing_without_rows _ _ _ n); [done|].
    destruct Hnone as [->| Hd]; [by left|right].
    unfold fillna, map_cells. simpl. by rewrite Hd. }
  destruct (push_append_run st df d g w sheet_urls _ Hplan Hdf Hsu Hm)
    as (st' & u & ws' & Hrun & _ & _ & _ & Hws' & Hcells & _).
  rewrite where_notnull_none_id, cells_of_filled in Hcells by apply fillna_notnull.
  exists st', u. split; [done|].
  unfold sheet_table. rewrite Hws', Hcells.
  apply (get_all_values_cells_of_table _ (length (columns d))); [|done].
  by apply width_table_of.
Qed.

Lemma append_without_rows_on_a_side_example :
  sheet_table "Swiggy Work Orders" "Orders"
    (push_df_to_gsheet 2 "Swiggy Work Orders" "Orders" true None
       (ledger (cells_of_table old_table))).2
  = [ledger_columns].
Proof.
  destruct (append_without_rows_on_a_side (ledger (cells_of_table old_table)) 2
              frame_empty "Swiggy Work Orders" "Orders" None
              (hd [] old_table) (tail old_table)
              eq_refl eq_refl I presentable_frame_empty)
    as (st' & u & Hrun & Htable).
  - vm_compute. reflexivity.
  - by right.
  - rewrite Hrun. exact Htable.
Defined.

(** ** Runs that end in an error *)
Lemma column_missing df name : name ∉ columns df → column df name = inl (KeyError name).
Proof.
  intros Hout. unfold column, column_index.
  destruct (list_find _ _) as [[k c]|] eqn:Hfind; [|done].
  apply list_find_Some in Hfind as (Hk & -> & _).
  destruct Hout. by eapply list_elem_of_lookup_2.
Qed.

Lemma merge_existing_key_error first_col header rows df n :
  width n ((first_col :: header) :: rows) → rows ≠ [] → values df ≠ [] →
  first_col ∉ columns df →
  merge_existing ((first_col :: header) :: rows) df = inl (KeyError first_col).
Proof.
  intros [<- Hw]%Forall_cons Hrows Hnew Hout. unfold merge_existing.
  rewrite frame_of_strings_width by done. unfold len. cbn [values columns].
  destruct rows as [|row rows]; [done|]. destruct (values df) as [|r rs] eqn:Hv; [done|].
  cbn [map_cells fmap list_fmap length Nat.ltb Nat.leb andb].
  rewrite column_first. by rewrite column_missing.
Qed.

(** X14: append mode on a worksheet with rows, with a frame that has rows but
    no column under the first label of the worksheet: the run ends in a
    KeyError for that label, after the worksheet was read and before it
    is cleared; the worksheet is as it was. *)
Theorem append_without_key_column st df d g w ss ws sheet_urls first_col header rows :
  plan st = [] → frames st !! df = Some d → urls_ok sheet_urls st →
  spreadsheets st !! g = Some ss → worksheets ss !! w = Some ws →
  get_all_values (cells ws) = (first_col :: header) :: rows →
  NoDup (first_col :: header) →
  rows ≠ [] → values d ≠ [] → first_col ∉ columns d →
  let run := push_df_to_gsheet df g w true sheet_urls st in
  run.1 = inl (KeyError first_col)
  ∧ find_worksheet g w run.2 = Some ws
  ∧ calls run.2 =
      calls st ++ [Authorize; ClientOpen g; GetWorksheet g w; GetAllValues g w].
Proof.
  intros Hplan Hdf Hsu Hss Hws Htable _ Hrows Hnew Hout run. subst run.
  destruct (get_all_values_width (cells ws)) as [n Hw]. rewrite Htable in Hw.
  assert (Hm : merge_existing (get_all_values (cells ws)) (fillna "" d)
               = inl (KeyError first_col)).
  { rewrite Htable. apply (merge_existing_key_error _ _ _ _ n); try done.
    unfold fillna, map_cells. simpl. by destruct (values d). }
  destruct st as [fr di sp nu pl ca]; simpl in *; subst pl.
  assert (Hsu' : sheet_urls = None
                 ∨ ∃ r dd, sheet_urls = Some r ∧ di !! r = Some dd).
  { destruct sheet_urls as [r|]; [right|by left].
    destruct Hsu as [dd Hdd]. by exists r, dd. }
  clear Hsu.
  destruct Hsu' as [->|(r & dd & -> & Hdd)]; [|destruct (dd !! g) eqn:Hg].
  all: exec; exec_more Hm.
  all: split_and!; [done| |by rewrite <- !app_assoc].
  all: by repeat exec_step.
Qed.

Lemma num_chunks_pos n : ∃ k, num_chunks (S n) = S k.
Proof.
  pose proof (num_chunks_enough (S n)) as Hle.
  destruct (num_chunks (S n)) as [|k]; [simpl in Hle; lia|eauto].
Qed.

Lemma first_chunk_nonempty (c : cell) cs rows :
  requests_of_chunk_index ((c :: cs) :: rows) 0 ≠ [].
Proof.
  intros Hnil.
  assert ({| range_row := start_row + 0; range_col := 0 + 1; value := c |}
          ∈ requests_of_chunk_index ((c :: cs) :: rows) 0) as Hin; [|by rewrite Hnil in Hin;
                                      apply elem_of_nil in Hin].
  unfold requests_of_chunk_index. rewrite slice_as_take.
  apply elem_of_chunk_requests. exists 0, (c :: cs), 0, c. split_and!; try done.
Qed.

Lemma write_chunks_first_fault g w cd (c : cell) cs rows st f rest :
  cd = (c :: cs) :: rows →
  plan st = Some f :: rest →
  (write_chunks g w cd st).1 = inl (exn_of_fault f)
  ∧ spreadsheets (write_chunks g w cd st).2 = spreadsheets st
  ∧ calls (write_chunks g w cd st).2 =
      calls st ++ [BatchUpdate g w (requests_of_chunk_index cd 0)].
Proof.
  intros -> Hplan. set (cd := (c :: cs) :: rows). unfold write_chunks.
  destruct (num_chunks_pos (length rows)) as [k Hk].
  change (length cd) with (S (length rows)). rewrite Hk.
  cbn [seq for_each]. unfold mbind at 1. unfold M_bind at 1. cbv beta zeta.
  rewrite bool_decide_eq_false_2 by apply first_chunk_nonempty.
  destruct st as [fr di sp nu pl ca]; simpl in *; subst pl.
  unfold_ops. simpl. done.
Qed.

(** X15: append mode is not atomic: when the worksheet was read and cleared
    and the first write then fails, the error is raised and the
    worksheet is left blank, with the grid it had; the rows it held are
    gone. *)
Theorem failed_first_write_leaves_blank st df d g w ss ws sheet_urls f rest :
  plan st = [None; None; None; None; None] ++ Some f :: rest →
  frames st !! df = Some d → urls_ok sheet_urls st →
  spreadsheets st !! g = Some ss → worksheets ss !! w = Some ws →
  well_formed d → compatible g w d st →
  let run := push_df_to_gsheet df g w true sheet_urls st in
  run.1 = inl (exn_of_fault f)
  ∧ find_worksheet g w run.2 =
      Some {| row_count := row_count ws; col_count := col_count ws; cells := ∅ |}
  ∧ sheet_table g w run.2 = []
  ∧ ∃ reqs, calls run.2 =
      calls st ++ [Authorize; ClientOpen g; GetWorksheet g w; GetAllValues g w;
                   Clear g w; BatchUpdate g w reqs].
Proof.
  intros Hplan Hdf Hsu Hss Hws (_ & _ & Hne) Hcompat run. subst run.
  destruct (sheet_table_width g w st) as [n Hw].
  pose proof (merge_existing_compatible _ d n Hne Hw Hcompat) as Hm.
  unfold sheet_table, find_worksheet in Hm. rewrite Hss in Hm. simpl in Hm.
  rewrite Hws in Hm. cbn [cells] in Hm.
  destruct (columns d) as [|c cs] eqn:Hcols; [done|].
  destruct st as [fr di sp nu pl ca]; simpl in *; subst pl.
  assert (Hsu' : sheet_urls = None
                 ∨ ∃ r dd, sheet_urls = Some r ∧ di !! r = Some dd).
  { destruct sheet_urls as [r|]; [right|by left].
    destruct Hsu as [dd Hdd]. by exists r, dd. }
  clear Hsu.
  destruct Hsu' as [->|(r & dd & -> & Hdd)]; [|destruct (dd !! g) eqn:Hg].
  all: exec; exec_more Hm.
  all: match goal with
       | |- context [write_chunks ?g ?w ?cd ?s] =>
           destruct (write_chunks_first_fault g w cd (Text c) (@fmap list _ _ _ Text cs)
                       (tail cd) s f rest eq_refl eq_refl)
             as (Hres & Hsp & Hca);
           destruct (write_chunks g w cd s) as [[e|[]] st2];
           simpl in *; [|done]
       end.
  all: injection Hres as ->; rewrite Hsp, Hca.
  all: unfold sheet_table, find_worksheet; rewrite Hsp; repeat exec_step.
  all: rewrite get_all_values_empty.
  all: split_and!; [done..|]; eexists; by rewrite <- !app_assoc.
Qed.

(** ** What a call leaves alone *)
Lemma changes_only_same g w su st st' :
  spreadsheets st' = spreadsheets st → dicts st' = dicts st →
  changes_only g w su st st'.
Proof.
  intros Hsp Hdi. unfold changes_only. rewrite Hsp, Hdi. split_and!; try done.
  - intros ss Hss. by exists ss.
  - intros r dd Hdd. exists dd. split_and!; try done. intros v Hv. by left.
Qed.

Lemma changes_only_refl g w su st : changes_only g w su st st.
Proof. by apply changes_only_same. Qed.

Lemma changes_only_trans g w su st1 st2 st3 :
  changes_only g w su st1 st2 → changes_only g w su st2 st3 →
  changes_only g w su st1 st3.
Proof.
  intros (Ha1 & Ha2 & Ha3 & Ha4) (Hb1 & Hb2 & Hb3 & Hb4). split_and!.
  - intros g' Hg'. by rewrite Hb1, Ha1.
  - intros ss Hss. destruct (Ha2 ss Hss) as (ss2 & Hss2 & Hurl2 & Hw2).
    destruct (Hb2 ss2 Hss2) as (ss3 & Hss3 & Hurl3 & Hw3).
    exists ss3. split_and!; [done|congruence|].
    intros w' Hw'. by rewrite Hw3, Hw2.
  - intros r Hr. by rewrite Hb3, Ha3.
  - intros r dd Hdd. destruct (Ha4 r dd Hdd) as (dd2 & Hdd2 & Hsub2 & Hk2 & Hv2).
    destruct (Hb4 r dd2 Hdd2) as (dd3 & Hdd3 & Hsub3 & Hk3 & Hv3).
    exists dd3. split_and!; [done|by etrans| |].
    + intros k Hk. by rewrite Hk3, Hk2.
    + intros v Hv. destruct (Hv3 v Hv) as [Hin2|Hurl]; [|by right].
      destruct (Hv2 v Hin2) as [Hin1|(ss2 & Hss2 & Hurl2)]; [by left|right].
      destruct (Hb2 ss2 Hss2) as (ss3 & Hss3 & Hurl3 & _).
      exists ss3. split; [done|congruence].
Qed.

Lemma respects_ret {A} g w su (a : A) : respects (changes_only g w su) (mret a).
Proof. intros st. apply changes_only_refl. Qed.

Lemma respects_raise {A} g w su e : respects (changes_only g w su) (@raise A e).
Proof. intros st. apply changes_only_refl. Qed.

Lemma respects_lift {A} g w su (r : exn + A) : respects (changes_only g w su) (lift r).
Proof. intros st. apply changes_only_refl. Qed.

Lemma respects_bind {A B} g w su (m : M A) (k : A → M B) :
  respects (changes_only g w su) m → (∀ a, respects (changes_only g w su) (k a)) →
  respects (changes_only g w su) (m ≫= k).
Proof.
  intros Hm Hk st. unfold mbind, M_bind.
  specialize (Hm st). destruct (m st) as [[e|a] st1]; simpl in *; [done|].
  eapply changes_only_trans; [exact Hm|apply Hk].
Qed.

Lemma respects_try {A} g w su (m : M A) handler :
  respects (changes_only g w su) m →
  (∀ e h, handler e = Some h → respects (changes_only g w su) h) →
  respects (changes_only g w su) (try_except m handler).
Proof.
  intros Hm Hh st. unfold try_except.
  specialize (Hm st). destruct (m st) as [[e|a] st1]; simpl in *; [|done].
  destruct (handler e) as [h|] eqn:He; [|done].
  eapply changes_only_trans; [exact Hm|by eapply Hh].
Qed.

Lemma respects_read {A} g w su (k : state → M A) :
  (∀ s, respects (changes_only g w su) (k s)) →
  respects (changes_only g w su) (get_state ≫= k).
Proof. intros Hk st. unfold mbind, M_bind, get_state. apply Hk. Qed.

Lemma respects_for_each {A} g w su (l : list A) body :
  (∀ x, respects (changes_only g w su) (body x)) →
  respects (changes_only g w su) (for_each l body).
Proof.
  intros Hb. induction l as [|x l IH]; [apply respects_ret|].
  apply respects_bind; [apply Hb | by intros _].
Qed.

Lemma respects_remote g w su c : respects (changes_only g w su) (remote c).
Proof.
  intros st. unfold remote. by destruct (plan _) as [|[?|] ?]; apply changes_only_same.
Qed.

Lemma respects_set_worksheet g w su o :
  respects (changes_only g w su) (modify (set_worksheet g w o)).
Proof.
  intros st. unfold modify, set_worksheet, set_spreadsheets. simpl.
  split_and!; simpl.
  - intros g' Hg'. by rewrite lookup_alter_ne.
  - intros ss Hss. rewrite lookup_alter_eq, Hss. simpl. eexists. split_and!; [done..|].
    intros w' Hw'. simpl. by rewrite lookup_partial_alter_ne.
  - done.
  - intros r dd Hdd. exists dd. split_and!; try done. intros v Hv. by left.
Qed.

Lemma respects_update_cells g w su u :
  respects (changes_only g w su) (update_cells u g w).
Proof.
  apply respects_read; intros s. destruct (find_worksheet g w s).
  - apply respects_set_worksheet.
  - apply respects_raise.
Qed.

Lemma respects_add_worksheet g w su rows cols :
  respects (changes_only g w su) (add_worksheet g w rows cols).
Proof.
  apply respects_bind; [apply respects_remote | intros _].
  apply respects_read; intros s. destruct (find_worksheet g w s).
  - apply respects_raise.
  - apply respects_set_worksheet.
Qed.

Lemma respects_write_chunks g w su cd :
  respects (changes_only g w su) (write_chunks g w cd).
Proof.
  apply respects_for_each; intros k. cbv beta zeta.
  case_bool_decide; [apply respects_ret|].
  apply respects_bind; [apply respects_remote | intros _].
  apply respects_update_cells.
Qed.

Lemma respects_open_or_create g w su :
  respects (changes_only g w su)
    (try_except (client_open g)
       (λ e, match e with
             | SpreadsheetNotFound => Some (client_create g;; sheet_share g)
             | _ => None
             end)).
Proof.
  intros st. destruct st as [fr di sp nu pl ca].
  destruct (sp !! g) as [ss|] eqn:Hg.
  - unfold_ops. simpl.
    destruct pl as [|[f|] rest]; simpl; rewrite ?Hg; simpl;
      try destruct f; simpl; by apply changes_only_same.
  - assert (Hnew : ∀ pl' ca',
              changes_only g w su
                {| frames := fr; dicts := di; spreadsheets := sp; new_url := nu;
                   plan := pl; calls := ca |}
                {| frames := fr; dicts := di;
                   spreadsheets :=
                     <[g := {| url := nu;
                               worksheets := {["Sheet1" := {| row_count := 1000;
                                                             col_count := 26;
                                                             cells := ∅ |}]} |}]> sp;
                   new_url := nu; plan := pl'; calls := ca' |}).
    { intros pl' ca'. split_and!; simpl; try done.
      - intros g' Hg'. by rewrite lookup_insert_ne.
      - intros ss Hss. congruence.
      - intros r dd Hdd. exists dd. split_and!; try done. intros v Hv. by left. }
    unfold_ops. simpl.
    destruct pl as [|[f|] [|[f'|] [|[f''|] rest]]]; simpl; rewrite ?Hg; simpl;
      try destruct f; simpl;
      first [by apply changes_only_same | apply Hnew].
Qed.

Lemma respects_record_url g w su :
  respects (changes_only g w su)
    (link ← sheet_url g; record_sheet_url su g link).
Proof.
  intros st. destruct st as [fr di sp nu pl ca].
  unfold_ops. simpl.
  destruct (sp !! g) as [ss|] eqn:Hg; simpl; [|apply changes_only_refl].
  destruct su as [r|]; simpl; [|apply changes_only_refl].
  destruct (di !! r) as [d|] eqn:Hr; simpl; [|apply changes_only_refl].
  destruct (d !! g) as [v|] eqn:Hv; simpl; [apply changes_only_refl|].
  split_and!; simpl.
  - done.
  - intros ss0 Hss0. by exists ss0.
  - intros r' Hr'. rewrite lookup_insert_ne; [done|congruence].
  - intros r' dd Hdd. destruct (decide (r' = r)) as [->|Hne].
    + rewrite lookup_insert_eq. assert (dd = d) as -> by congruence.
      eexists. split_and!; [done|by apply insert_subseteq| |].
      * intros k Hk. by rewrite lookup_insert_ne.
      * rewrite lookup_insert_eq. intros v [= <-]. right. by exists ss.
    + rewrite lookup_insert_ne by done. exists dd. split_and!; try done.
      intros v Hv'. by left.
Qed.

Lemma respects_record_then {B} g w su (k : string → M B) :
  (∀ link, respects (changes_only g w su) (k link)) →
  respects (changes_only g w su)
    (link ← sheet_url g; record_sheet_url su g link;; k link).
Proof.
  intros Hk st. pose proof (respects_record_url g w su st) as Hblock.
  unfold mbind, M_bind in *.
  destruct (sheet_url g st) as [[e|link] st1]; simpl in *; [done|].
  destruct (record_sheet_url su g link st1) as [[e|[]] st2]; simpl in *; [done|].
  eapply changes_only_trans; [exact Hblock|apply Hk].
Qed.

Lemma respects_same {A} g w su (m : M A) :
  (∀ st, spreadsheets (m st).2 = spreadsheets st ∧ dicts (m st).2 = dicts st) →
  respects (changes_only g w su) m.
Proof. intros Hm st. destruct (Hm st). by apply changes_only_same. Qed.

Lemma respects_sheet_url g w su : respects (changes_only g w su) (sheet_url g).
Proof.
  apply respects_read; intros s.
  destruct (spreadsheets s !! g); [apply respects_ret | apply respects_raise].
Qed.

Lemma respects_sheet_worksheet g w su :
  respects (changes_only g w su) (sheet_worksheet g w).
Proof.
  apply respects_bind; [apply respects_remote | intros _].
  apply respects_read; intros s.
  destruct (find_worksheet g w s); [apply respects_ret | apply respects_raise].
Qed.

Lemma push_changes_only df g w update_existing sheet_urls :
  respects (changes_only g w sheet_urls)
    (push_df_to_gsheet df g w update_existing sheet_urls).
Proof.
  unfold push_df_to_gsheet.
  apply respects_bind.
  { apply respects_read; intros s. destruct (frames s !! df); [|apply respects_raise].
    apply respects_same. by intros st. }
  intros _. apply respects_bind; [apply respects_remote | intros _].
  apply respects_bind; [apply respects_open_or_create | intros _].
  apply respects_record_then; intros _.
  apply respects_bind.
  { apply respects_read; intros s.
    destruct (frames s !! df); [apply respects_ret | apply respects_raise]. }
  intros df0. destruct (shape df0) as [rows cols].
  apply respects_bind;
    [|intros final; apply respects_bind;
        [apply respects_write_chunks | intros _; apply respects_sheet_url]].
  apply respects_try.
  - apply respects_bind; [apply respects_sheet_worksheet | intros _].
    destruct update_existing; simpl.
    + apply respects_bind.
      { apply respects_bind; [apply respects_remote | intros _].
        apply respects_read; intros s.
        destruct (find_worksheet g w s); [apply respects_ret | apply respects_raise]. }
      intros existing. apply respects_bind; [apply respects_lift | intros merged].
      apply respects_bind; [|intros _; apply respects_ret].
      apply respects_bind; [apply respects_remote | intros _].
      apply respects_update_cells.
    + apply respects_bind.
      { apply respects_bind; [apply respects_remote | intros _].
        apply respects_set_worksheet. }
      intros _. apply respects_bind; [|intros _; apply respects_ret].
      apply respects_try; [apply respects_add_worksheet|].
      intros e h He. destruct e; simplify_eq.
      case_match; simplify_eq.
      apply respects_bind; [|intros _; apply respects_add_worksheet].
      apply respects_same. by intros st.
  - intros e h He. destruct e; simplify_eq.
    apply respects_bind; [apply respects_add_worksheet | intros _; apply respects_ret].
Qed.

(** X16: whatever the remote calls answer, and in both modes, a call for the
    worksheet [w] of the spreadsheet [g] leaves the other spreadsheets
    as they are, and when [g] is there it stays, with its URL, and its
    other worksheets are as they were. *)
Theorem push_touches_one_worksheet st df g w update_existing sheet_urls :
  let st' := (push_df_to_gsheet df g w update_existing sheet_urls st).2 in
  (∀ g', g' ≠ g → spreadsheets st' !! g' = spreadsheets st !! g')
  ∧ (∀ ss, spreadsheets st !! g = Some ss →
       ∃ ss', spreadsheets st' !! g = Some ss' ∧ url ss' = url ss
              ∧ ∀ w', w' ≠ w → worksheets ss' !! w' = worksheets ss !! w').
Proof.
  intros st'. subst st'.
  destruct (push_changes_only df g w update_existing sheet_urls st)
    as (Hothers & Hsame & _).
  split; [exact Hothers|exact Hsame].
Qed.

(** X17: whatever the remote calls answer, the dictionaries of the caller
    other than [sheet_urls] are left as they are, and in [sheet_urls] no
    entry is changed or removed, and none is added but, when the name of
    the spreadsheet has none, one under that name, which holds the URL
    of the spreadsheet. *)
Theorem sheet_urls_keeps_first_link st df g w update_existing sheet_urls :
  let st' := (push_df_to_gsheet df g w update_existing sheet_urls st).2 in
  (∀ r, sheet_urls ≠ Some r → dicts st' !! r = dicts st !! r)
  ∧ (∀ r dd, dicts st !! r = Some dd →
       ∃ dd', dicts st' !! r = Some dd' ∧ dd ⊆ dd'
              ∧ (∀ k, k ≠ g → dd' !! k = dd !! k)
              ∧ (∀ v, dd' !! g = Some v →
                   dd !! g = Some v
                   ∨ ∃ ss', spreadsheets st' !! g = Some ss' ∧ url ss' = v)).
Proof.
  intros st'. subst st'.
  destruct (push_changes_only df g w update_existing sheet_urls st)
    as (_ & _ & Hothers & Hsame).
  split; [exact Hothers|exact Hsame].
Qed.

Lemma append_without_key_column_example :
  let run := push_df_to_gsheet 4 "Swiggy Work Orders" "Orders" true None
               (ledger_with_frame frame_renamed) in
  run.1 = inl (KeyError "order_id")
  ∧ sheet_table "Swiggy Work Orders" "Orders" run.2 = old_table.
Proof.
  destruct (append_without_key_column (ledger_with_frame frame_renamed) 4 frame_renamed
              "Swiggy Work Orders" "Orders"
              {| url := "https://docs.google.com/spreadsheets/d/1";
                 worksheets := {["Orders" := {| row_count := 12; col_count := 5;
                                                cells := cells_of_table old_table |}]} |}
              {| row_count := 12; col_count := 5; cells := cells_of_table old_table |}
              None "order_id" ["date"; "drive_link"; "amount"] (tail old_table))
    as (Hres & Hws & _).
  - reflexivity.
  - reflexivity.
  - exact I.
  - reflexivity.
  - reflexivity.
  - vm_compute. reflexivity.
  - compute_done.
  - done.
  - done.
  - compute_done.
  - split; [exact Hres|]. unfold sheet_table. rewrite Hws. vm_compute. reflexivity.
Defined.

Lemma failed_first_write_leaves_blank_example :
  let run := push_df_to_gsheet 0 "Swiggy Work Orders" "Orders" true None
               (ledger_with_plan [None; None; None; None; None;
                                  Some (HttpStatus 500)]) in
  run.1 = inl (APIError 500)
  ∧ sheet_table "Swiggy Work Orders" "Orders" run.2 = [].
Proof.
  destruct (failed_first_write_leaves_blank
              (ledger_with_plan [None; None; None; None; None; Some (HttpStatus 500)])
              0 frame_a "Swiggy Work Orders" "Orders"
              {| url := "https://docs.google.com/spreadsheets/d/1";
                 worksheets := {["Orders" := {| row_count := 12; col_count := 5;
                                                cells := cells_of_table old_table |}]} |}
              {| row_count := 12; col_count := 5; cells := cells_of_table old_table |}
              None (HttpStatus 500) [])
    as (Hres & _ & Htable & _).
  - reflexivity.
  - reflexivity.
  - exact I.
  - reflexivity.
  - reflexivity.
  - apply well_formed_ledger_frame. by repeat constructor.
  - right. vm_compute. reflexivity.
  - by split.
Defined.

Lemma push_touches_one_worksheet_example :
  let run := push_df_to_gsheet 0 "Swiggy Work Orders" "March" false None
               (ledger_with_plan [None; None; None; Some (HttpStatus 500)]) in
  ∃ ss', spreadsheets run.2 !! "Swiggy Work Orders" = Some ss'
         ∧ worksheets ss' !! "Orders" =
             Some {| row_count := 12; col_count := 5;
                     cells := cells_of_table old_table |}.
Proof.
  destruct (push_touches_one_worksheet
              (ledger_with_plan [None; None; None; Some (HttpStatus 500)])
              0 "Swiggy Work Orders" "March" false None) as [_ Hsame].
  destruct (Hsame _ eq_refl) as (ss' & Hss' & _ & Hothers).
  exists ss'. split; [exact Hss'|]. by rewrite (Hothers "Orders").
Defined.

Lemma sheet_urls_keeps_first_link_example :
  let run := push_df_to_gsheet 0 "Swiggy Work Orders" "Orders" true (Some 0)
               (ledger_with_dict {["Swiggy Work Orders" := "first link"]}) in
  ∃ dd', dicts run.2 !! 0 = Some dd'
         ∧ dd' !! "Swiggy Work Orders" = Some "first link".
Proof.
  destruct (sheet_urls_keeps_first_link
              (ledger_with_dict {["Swiggy Work Orders" := "first link"]})
              0 "Swiggy Work Orders" "Orders" true (Some 0)) as [_ Hsame].
  destruct (Hsame 0 _ eq_refl) as (dd' & Hdd' & Hsub & _).
  exists dd'. split; [exact Hdd'|].
  eapply lookup_weaken; [|exact Hsub]. reflexivity.
Defined.

End GSheetFacts.

(** * Properties of a whole run of [main] *)
Module MainFacts.
Import PyStr Scraper ScraperSpec ScraperFacts GSheet GSheetSpec GSheetFacts.
Import Main MainSpec.




Lemma frame_of_orders_table rows :
  rows ≠ [] →
  table_of (frame_of_orders rows) = ledger_columns :: (ledger_row <$> rows).
Proof.
  intros Hne. rewrite frame_of_orders_nonempty by done.
  unfold table_of, texts, fillna, map_cells. cbn [columns values].
  f_equal. rewrite <- !list_fmap_compose. by apply list_fmap_ext.
Qed.

Lemma sheet_table_set_frames g w f st :
  sheet_table g w (set_frames f st) = sheet_table g w st.
Proof. done. Qed.

(** The [finally] block with rows, when every call succeeds, on a
    worksheet that is absent, blank or under the labels of the ledger. *)
Lemma publish_run sc rows st :
  plan st = [] → rows ≠ [] → Forall (λ r, Scraper.drive_link r ≠ "") rows →
  let g := GOOGLE_SHEET_NAME sc in
  let w := WORKSHEET_NAME sc in
  sheet_table g w st = [] ∨ head (sheet_table g w st) = Some ledger_columns →
  ∃ st',
    publish sc rows st = (inr (), st')
    ∧ plan st' = []
    ∧ sheet_table g w st' =
        merged_table (sheet_table g w st) (frame_of_orders rows).
Proof.
  intros Hplan Hne Hlinks g w Hcompat.
  pose proof (frame_of_orders_presentable rows Hne Hlinks) as Hpres.
  set (d := frame_of_orders rows) in *.
  set (r := fresh (dom (frames st))).
  set (st0 := set_frames (<[r := d]>) st).
  destruct (append_run_table st0 r d g w None) as
    (st' & u & ws' & Hrun & Hplan' & _ & _ & _ & _ & Htable & _).
  - done.
  - subst st0. simpl. by rewrite lookup_insert_eq.
  - exact I.
  - done.
  - unfold compatible. subst st0. rewrite sheet_table_set_frames.
    subst d. by rewrite frame_of_orders_nonempty.
  - exists st'. unfold publish. destruct rows as [|row rows]; [done|].
    fold d. unfold mbind at 1. unfold M_bind at 1. unfold new_frame.
    fold r. fold st0. unfold try_except, mbind, M_bind. fold g w.
    rewrite Hrun. split_and!; [done..|].
    rewrite Htable. subst st0. by rewrite sheet_table_set_frames.
Qed.

Lemma main_loop_links cfg views :
  Forall (λ r, Scraper.drive_link r ≠ "") (Scraper.order_data (main_loop cfg views)).
Proof. apply process_orders_links. constructor. Qed.

Lemma makedirs_usable cfg : usable_directory cfg → makedirs (BILLS_DIRECTORY cfg) None = inr ().
Proof.
  intros [Hne Hnul]. unfold makedirs. by rewrite bool_decide_eq_false_2, Hnul.
Qed.

Lemma main_ready cfg sc views st :
  usable_directory cfg →
  main cfg sc (session_of views) st =
  (publish sc (Scraper.order_data (main_loop cfg views)) ≫= λ _, mret ()) st.
Proof.
  intros Hdir. unfold main. cbn [makedirs_error session_of].
  rewrite makedirs_usable by done. reflexivity.
Qed.

(** X19: a first run of [main] with a bills directory that can be
    created, when every call succeeds, on a worksheet that is absent or
    blank: the worksheet then returns the four labels of the ledger and,
    under them, one row for each row collected, in the order of the
    orders; with no row collected it stays as it is. *)
Theorem main_first_run_writes_the_rows cfg sc views st :
  usable_directory cfg →
  plan st = [] →
  let g := GOOGLE_SHEET_NAME sc in
  let w := WORKSHEET_NAME sc in
  sheet_table g w st = [] →
  let rows := Scraper.order_data (main_loop cfg views) in
  let st' := (main cfg sc (session_of views) st).2 in
  (main cfg sc (session_of views) st).1 = inr ()
  ∧ sheet_table g w st' =
      match rows with
      | [] => []
      | _ => ["order_id"; "date"; "drive_link"; "amount"] :: (ledger_row <$> rows)
      end.
Proof.
  intros Hdir Hplan g w Hblank rows st'. subst st'. rewrite main_ready by done.
  fold rows.
  destruct (decide (rows = [])) as [Hnil|Hne].
  { rewrite Hnil. by split. }
  destruct (publish_run sc rows st Hplan Hne (main_loop_links cfg views))
    as (st1 & Hrun & _ & Htable); [by left|].
  unfold mbind, M_bind. rewrite Hrun. unfold mret, M_ret. cbn [fst snd].
  split; [done|]. fold g w in Htable. rewrite Htable, Hblank.
  unfold merged_table, kept_rows. cbn [tail].
  fold (table_of (frame_of_orders rows)).
  replace (match values (fillna "" (frame_of_orders rows)) with
           | [] => [] | _ :: _ => filter _ []
           end) with (@nil (list string))
    by (by destruct (values _)).
  cbn [app]. fold (table_of (frame_of_orders rows)).
  rewrite frame_of_orders_table by done. by destruct rows.
Qed.

Lemma main_first_run_writes_the_rows_example :
  sheet_table "Swiggy Work Orders" "Orders"
    (main default_config default_sheet_config (session_of [order_1; order_2])
       no_ledger).2
  = [["order_id"; "date"; "drive_link"; "amount"];
     ["111"; "Mon, 5 Jan 2024, 10:30 AM";
      "https://drive.google.com/file/d/f1/view?usp=sharing"; "250"];
     ["222"; "Mon, 5 Jan 2024, 10:30 AM";
      "https://drive.google.com/file/d/f2/view?usp=sharing"; "90"]].
Proof.
  refine (proj2 (main_first_run_writes_the_rows default_config default_sheet_config
                   [order_1; order_2] no_ledger _ eq_refl eq_refl)).
  by split.
Defined.








End MainFacts.
